(** * MinskyBot run-time core: life-cycle state machine and software timers

    A shallow embedding of [devices/feathers2.py]: the [RunStates]
    enumeration, the [Timer] class and the parts of the [FeatherS2] base
    class that drive the application life cycle and own the timer
    dictionary.

    Modelling decisions, all taken from the Python source:

    - Python objects live in a store.  [Timer] instances are allocated in
      [heap] and referred to by their index ([ObjId]); the timer dictionary
      maps names to references, so replacing a dictionary entry does not
      touch the object that was stored there before.
    - [self.timers] is a [dict]; its insertion order is kept, so it is an
      association list with Python's item-assignment and deletion rules.
    - [monotonic_ns()] reads the field [clock] (nanoseconds).  Time passes
      when the environment, a hook or a callback advances that field.
    - Durations are exact integers.  Python starts [duration] at the
      float [0.0] and adds integer nanosecond differences to it, and a
      fire makes it the integer [after - now] again.  A float holds every
      integer up to 2^53 exactly, so the exact arithmetic here is the
      arithmetic of the source as long as the accumulator, what is added
      to it and the sum stay within 2^53 nanoseconds (about 104 days);
      beyond, the source rounds.  The theorems on accumulated time carry
      that bound as a hypothesis ([float_exact]).
    - [update_timers()] walks the values the dictionary holds when the
      pass begins.  The source iterates the dictionary itself, and Python
      raises [RuntimeError] when a callback adds or removes an entry
      during the pass; the model agrees with the source for callbacks
      that leave the set of registered names alone during a pass.
    - A fault is an instance of [Exception], which is what the handler of
      [run()] catches.  A call returns the state it leaves behind together
      with an [outcome]; state changes made before a raise persist.
    - [while not self.finished] may never end, so the loop takes fuel and
      returns [None] when the fuel runs out. *)

From Stdlib Require Import ZArith Lia Ascii.
From stdpp Require Import base list strings pretty.

Local Open Scope Z_scope.

(** ** Enumeration [RunStates] *)

Inductive RunStates :=
  | NOT_STARTED
  | STARTING
  | INITIALISING
  | LOOPING
  | DEINITIALISING
  | SHUTTING_DOWN.

(** The integer each class attribute of [RunStates] is bound to. *)
Definition ordinal (s : RunStates) : Z :=
  match s with
  | NOT_STARTED => 1
  | STARTING => 2
  | INITIALISING => 3
  | LOOPING => 4
  | DEINITIALISING => 5
  | SHUTTING_DOWN => 6
  end.

Global Instance RunStates_eq_dec : EqDecision RunStates.
Proof. solve_decision. Defined.

(** ** Exceptions and outcomes *)

Inductive exn := Exception (msg : string).

Definition exn_msg (e : exn) : string := match e with Exception m => m end.

Inductive outcome :=
  | Ok
  | Raise (e : exn).

(** ** Object references *)

Definition ObjId := nat.
Definition CallbackId := nat.
Definition RtcRef := nat.

(** ** Instance attributes of [Timer] *)

Record Timer := mkTimer {
  name : string;
  period : Z;
  callback : CallbackId;
  rtc : option RtcRef;
  trigger_count : Z;
  running : bool;
  paused : bool;
  duration : Z;
  before : Z
}.

Definition with_trigger_count (v : Z) (t : Timer) : Timer :=
  mkTimer (name t) (period t) (callback t) (rtc t) v (running t) (paused t)
          (duration t) (before t).
Definition with_running (v : bool) (t : Timer) : Timer :=
  mkTimer (name t) (period t) (callback t) (rtc t) (trigger_count t) v (paused t)
          (duration t) (before t).
Definition with_paused (v : bool) (t : Timer) : Timer :=
  mkTimer (name t) (period t) (callback t) (rtc t) (trigger_count t) (running t) v
          (duration t) (before t).
Definition with_duration (v : Z) (t : Timer) : Timer :=
  mkTimer (name t) (period t) (callback t) (rtc t) (trigger_count t) (running t)
          (paused t) v (before t).
Definition with_before (v : Z) (t : Timer) : Timer :=
  mkTimer (name t) (period t) (callback t) (rtc t) (trigger_count t) (running t)
          (paused t) (duration t) v.

(** ** Insertion-ordered dictionaries with string keys *)

Section Dict.
Context {V : Type}.

Definition dict := list (string * V).

(** [d[k]] when present. *)
Fixpoint dict_get (k : string) (d : dict) : option V :=
  match d with
  | [] => None
  | (k', v) :: r => if decide (k = k') then Some v else dict_get k r
  end.

(** [k in d] *)
Definition dict_mem (k : string) (d : dict) : bool :=
  match dict_get k d with Some _ => true | None => false end.

(** [d[k] = v]: an existing key keeps its position, a new key goes last. *)
Fixpoint dict_set (k : string) (v : V) (d : dict) : dict :=
  match d with
  | [] => [(k, v)]
  | (k', v') :: r =>
      if decide (k = k') then (k, v) :: r else (k', v') :: dict_set k v r
  end.

(** [del d[k]] for a key that may be absent. *)
Fixpoint dict_del (k : string) (d : dict) : dict :=
  match d with
  | [] => []
  | (k', v') :: r => if decide (k = k') then r else (k', v') :: dict_del k r
  end.

(** [d.values()] *)
Definition dict_values (d : dict) : list V := map snd d.

(** [d.keys()] *)
Definition dict_keys (d : dict) : list string := map fst d.
End Dict.

Arguments dict : clear implicits.

(** ** The world: what lies outside the core, the clock and the objects *)

(** What the core does not own: peripherals, the secrets module, the
    attributes a derived application class adds to [self]. *)
Class Outside := {
  U : Type;
  Datetime : Type
}.

Section WorldDef.
Context `{Outside}.

(** [user] and [clock] are the environment; [name_counter] is
    the class attribute [Timer.name_counter]; [heap] holds the [Timer]
    objects; the remaining fields are the attributes of the [FeatherS2]
    instance that the life cycle and the timer operations read or write.
    [__init__] binds those attributes to [None] and [startup()] gives
    them their first usable value, so a field holds what was last
    assigned; [debug_on] is only ever tested for truth, and an unassigned
    [None] is [false]. *)
Record World := mkWorld {
  user : U;
  clock : Z;
  name_counter : N;
  heap : list Timer;
  debug_on : bool;
  finished : bool;
  exit_code : Z;
  run_state : RunStates;
  timers : dict ObjId
}.

Definition with_user (v : U) (w : World) : World :=
  mkWorld v (clock w) (name_counter w) (heap w) (debug_on w)
          (finished w) (exit_code w) (run_state w) (timers w).
Definition with_clock (v : Z) (w : World) : World :=
  mkWorld (user w) v (name_counter w) (heap w) (debug_on w)
          (finished w) (exit_code w) (run_state w) (timers w).
Definition with_name_counter (v : N) (w : World) : World :=
  mkWorld (user w) (clock w) v (heap w) (debug_on w)
          (finished w) (exit_code w) (run_state w) (timers w).
Definition with_heap (v : list Timer) (w : World) : World :=
  mkWorld (user w) (clock w) (name_counter w) v (debug_on w)
          (finished w) (exit_code w) (run_state w) (timers w).
Definition with_debug_on (v : bool) (w : World) : World :=
  mkWorld (user w) (clock w) (name_counter w) (heap w) v
          (finished w) (exit_code w) (run_state w) (timers w).
Definition with_finished (v : bool) (w : World) : World :=
  mkWorld (user w) (clock w) (name_counter w) (heap w) (debug_on w)
          v (exit_code w) (run_state w) (timers w).
Definition with_exit_code (v : Z) (w : World) : World :=
  mkWorld (user w) (clock w) (name_counter w) (heap w) (debug_on w)
          (finished w) v (run_state w) (timers w).
Definition with_run_state (v : RunStates) (w : World) : World :=
  mkWorld (user w) (clock w) (name_counter w) (heap w) (debug_on w)
          (finished w) (exit_code w) v (timers w).
Definition with_timers (v : dict ObjId) (w : World) : World :=
  mkWorld (user w) (clock w) (name_counter w) (heap w) (debug_on w)
          (finished w) (exit_code w) (run_state w) v.

(** A method or callback: it leaves a world behind and either returns
    or raises. *)
Definition Act := World -> World * outcome.

(** [pass] *)
Definition pass : Act := fun w => (w, Ok).

(** Sequencing of two statements: the second runs only if the first
    returned. *)
Definition andthen (a b : Act) : Act :=
  fun w =>
    let '(w1, o) := a w in
    match o with
    | Ok => b w1
    | Raise e => (w1, Raise e)
    end.

(** [monotonic_ns()] *)
Definition monotonic_ns (w : World) : Z := clock w.

(** The environment lets [dt] nanoseconds pass. *)
Definition advance (dt : Z) (w : World) : World := with_clock (clock w + dt) w.

(** Mutation of the object behind a reference.  A reference keeps its
    object alive, so the index is always in range where the source
    dereferences [self]; out of range the store is left alone. *)
Definition on_obj (self : ObjId) (f : Timer -> Timer) (w : World) : World :=
  with_heap (alter f self (heap w)) w.
End WorldDef.

(** What the core calls into without owning it. *)
Class Callables `{Outside} := {
  (** [rtc.datetime] of a clock source *)
  rtc_datetime : RtcRef -> World -> Datetime;
  (** [callback(source=..., triggered_at=...)] for each callable that was
      handed to a [Timer] *)
  invoke : CallbackId -> ObjId -> option Datetime -> Act;
  (** lines 97-186 of [startup()]: loading the secrets, opening the I2C
      and SPI buses, creating the RTC.  It works on the environment only
      and reports the value [debug_on] was left with. *)
  bootstrap : U -> U * bool * outcome;
  (** what [print] and [sys.print_exception] do to the serial console *)
  console_write : string -> U -> U
}.

(** [print(s)] and [sys.print_exception(ex)] *)
Definition print `{Callables} (s : string) (w : World) : World :=
  with_user (console_write s (user w)) w.

(** Truth value of the [name] argument: [None] and the empty string are
    falsy. *)
Definition truthy (nm : option string) : bool :=
  match nm with
  | Some s => negb (String.eqb s "")
  | None => false
  end.

(** ** Class [Timer] *)

Module Timer.
Section Methods.
Context `{Callables}.

(** ["Timer-{0}".format(Timer.name_counter)] *)
Definition auto_name (k : N) : string := "Timer-" +:+ pretty k.

(** [Timer.__init__]: allocates the object and returns its reference. *)
Definition new (period : Z) (callback : CallbackId) (nm : option string)
    (rtc : option RtcRef) (w : World) : World * ObjId :=
  let '(n, w1) :=
    if truthy nm then (default "" nm, w)
    else (auto_name (name_counter w),
          with_name_counter (name_counter w + 1)%N w) in
  let self := length (heap w1) in
  (with_heap (heap w1 ++ [mkTimer n period callback rtc 0 false false 0 0]) w1,
   self).

Definition reset (self : ObjId) (w : World) : World :=
  on_obj self
    (fun t => with_before (monotonic_ns w)
                (with_duration 0 (with_trigger_count 0 t))) w.

Definition start (self : ObjId) (w : World) : World :=
  on_obj self (fun t => with_paused false (with_running true t))
    (reset self w).

Definition stop (self : ObjId) (w : World) : World :=
  reset self
    (on_obj self (fun t => with_paused false (with_running false t)) w).

Definition pause (self : ObjId) (w : World) : World :=
  on_obj self (with_paused true) w.

Definition resume (self : ObjId) (w : World) : World :=
  on_obj self
    (fun t => with_before (monotonic_ns w) (with_paused false t)) w.

(** Lines 509-511: the wall-clock snapshot handed to the callback. *)
Definition triggered_at (t : Timer) (w : World) : option Datetime :=
  match rtc t with
  | Some r => Some (rtc_datetime r w)
  | None => None
  end.

(** [update()].  [d] is the sum [self.duration += now - self.before]
    forms; the source forms it in a float while the accumulator is the
    [0.0] of [reset()], and in integers after a fire. *)
Definition update (self : ObjId) : Act := fun w =>
  match heap w !! self with
  | None => (w, Ok)
  | Some t =>
      if running t && negb (paused t) then
        let now := monotonic_ns w in
        let d := duration t + (now - before t) in
        let w1 := on_obj self (with_duration d) w in
        if period t * 1000000 <=? d then
          let now_as_datetime := triggered_at t w1 in
          let '(w2, o) := invoke (callback t) self now_as_datetime w1 in
          match o with
          | Raise e => (w2, Raise e)
          | Ok =>
              let after := monotonic_ns w2 in
              (on_obj self
                 (fun t' =>
                    with_before after
                      (with_trigger_count (trigger_count t' + 1)
                         (with_duration (after - now) t'))) w2,
               Ok)
          end
        else (on_obj self (with_before now) w1, Ok)
      else (w, Ok)
  end.
End Methods.
End Timer.

(** ** Class [FeatherS2] *)

(** The methods [run()] dispatches to through [self] and that a derived
    application class overrides. *)
Record AppClass `{Outside} := mkAppClass {
  init : Act;
  loop : Act;
  deinit : Act;
  shutdown : Act
}.

(** What an observer of one execution of [run()] sees: every assignment
    to [run_state] made by the base class and every method [run()]
    invokes.  The record is kept beside the world, out of reach of the
    hooks. *)
Inductive Method :=
  | m_startup
  | m_init
  | m_update_timers
  | m_loop
  | m_deinit
  | m_shutdown.

Inductive Event :=
  | Assign (s : RunStates)
  | Call (m : Method).

Global Instance Method_eq_dec : EqDecision Method.
Proof. solve_decision. Defined.
Global Instance Event_eq_dec : EqDecision Event.
Proof. solve_decision. Defined.

Record Machine `{Outside} := mkMachine {
  world : World;
  trace : list Event
}.

Definition Prog `{Outside} := Machine -> Machine * outcome.

(** Statement sequencing inside [run()]. *)
Definition pthen `{Outside} (a b : Prog) : Prog :=
  fun m =>
    let '(m1, o) := a m in
    match o with
    | Ok => b m1
    | Raise e => (m1, Raise e)
    end.

Infix ">>>" := pthen (at level 60, right associativity).

(** [self.run_state = s] *)
Definition assign `{Outside} (s : RunStates) : Prog :=
  fun m => (mkMachine _ (with_run_state s (world m)) (trace m ++ [Assign s]), Ok).

(** [self.<method>()] *)
Definition call `{Outside} (meth : Method) (a : Act) : Prog :=
  fun m =>
    let '(w, o) := a (world m) in
    (mkMachine _ w (trace m ++ [Call meth]), o).

(** A statement that neither raises nor is observed. *)
Definition silently `{Outside} (f : World -> World) : Prog :=
  fun m => (mkMachine _ (f (world m)) (trace m), Ok).

Module FeatherS2.
Section Methods.
Context `{Callables}.

Definition nl : string := String "010"%char "".

(** [startup()].  Lines 97-186 are [bootstrap]; lines 191-203 are the
    four assignments. *)
Definition startup : Prog := fun m =>
  let w := world m in
  let '(u, dbg, o) := bootstrap (user w) in
  let w1 := with_debug_on dbg (with_user u w) in
  match o with
  | Raise e => (mkMachine _ w1 (trace m ++ [Call m_startup]), Raise e)
  | Ok =>
      (silently (with_finished false)
       >>> silently (with_exit_code 0)
       >>> assign NOT_STARTED
       >>> silently (with_timers []))
        (mkMachine _ w1 (trace m ++ [Call m_startup]))
  end.

(** [finish()] *)
Definition finish (w : World) : World := with_finished true w.

(** [update_timers()].  The pass visits the values the dictionary holds
    when the pass begins, which is what the source does as long as no
    callback adds or removes an entry during the pass. *)
Fixpoint update_each (ids : list ObjId) : Act :=
  match ids with
  | [] => pass
  | i :: r => andthen (Timer.update i) (update_each r)
  end.

Definition update_timers : Act := fun w =>
  update_each (dict_values (timers w)) w.

(** [add_timer(period, callback, name, rtc)]; the result is the
    reference to the new timer or [None]. *)
Definition add_timer (period : Z) (callback : CallbackId)
    (nm : option string) (rtc : option RtcRef) (w : World)
    : World * option ObjId :=
  let taken :=
    match nm with
    | Some s => dict_mem s (timers w)
    | None => false
    end in
  if negb (truthy nm) || negb taken then
    let '(w1, timer) := Timer.new period callback nm rtc w in
    let key := from_option name "" (heap w1 !! timer) in
    (with_timers (dict_set key timer (timers w1)) w1, Some timer)
  else (w, None).

Definition remove_timer (nm : string) (w : World) : World :=
  if dict_mem nm (timers w) then with_timers (dict_del nm (timers w)) w else w.

Definition remove_all_timers (w : World) : World := with_timers [] w.

Definition has_timer (nm : string) (w : World) : bool := dict_mem nm (timers w).

Definition get_timer (nm : string) (w : World) : option ObjId :=
  if has_timer nm w then dict_get nm (timers w) else None.

(** [start_timer], [stop_timer], [pause_timer], [resume_timer] *)
Definition on_timer (op : ObjId -> World -> World) (nm : string) (w : World)
    : World :=
  match get_timer nm w with
  | Some timer => op timer w
  | None => w
  end.

Definition start_timer := on_timer Timer.start.
Definition stop_timer := on_timer Timer.stop.
Definition pause_timer := on_timer Timer.pause.
Definition resume_timer := on_timer Timer.resume.

(** [start_all_timers] and its three siblings *)
Definition on_all_timers (op : ObjId -> World -> World) (w : World) : World :=
  foldl (fun w' timer => op timer w') w (dict_values (timers w)).

Definition start_all_timers := on_all_timers Timer.start.
Definition stop_all_timers := on_all_timers Timer.stop.
Definition pause_all_timers := on_all_timers Timer.pause.
Definition resume_all_timers := on_all_timers Timer.resume.

(** *** [run()] *)

(** Lines 214-220: up to and including [self.run_state = LOOPING]. *)
Definition before_loop (cls : AppClass) : Prog :=
  assign STARTING
  >>> startup
  >>> assign INITIALISING
  >>> call m_init (init cls)
  >>> assign LOOPING.

(** Lines 222-223: the body of the loop. *)
Definition iteration (cls : AppClass) : Prog :=
  call m_update_timers update_timers >>> call m_loop (loop cls).

(** Lines 221-223: [while not self.finished]. *)
Fixpoint looping (cls : AppClass) (fuel : nat) (m : Machine)
    : option (Machine * outcome) :=
  if finished (world m) then Some (m, Ok)
  else
    match fuel with
    | O => None
    | S fuel' =>
        match iteration cls m with
        | (m1, Ok) => looping cls fuel' m1
        | (m1, Raise e) => Some (m1, Raise e)
        end
    end.

(** Lines 225-229. *)
Definition after_loop (cls : AppClass) : Prog :=
  assign DEINITIALISING
  >>> call m_deinit (deinit cls)
  >>> assign SHUTTING_DOWN
  >>> call m_shutdown (shutdown cls).

(** Lines 214-223: the [try] body up to the end of the loop. *)
Definition through_loop (cls : AppClass) (fuel : nat) (m : Machine)
    : option (Machine * outcome) :=
  match before_loop cls m with
  | (m1, Raise e) => Some (m1, Raise e)
  | (m1, Ok) => looping cls fuel m1
  end.

(** The body of the [try] statement. *)
Definition try_body (cls : AppClass) (fuel : nat) (m : Machine)
    : option (Machine * outcome) :=
  match through_loop cls fuel m with
  | Some (m2, Ok) => Some (after_loop cls m2)
  | r => r
  end.

(** Lines 231-233 and 244-246: what the handler writes to the console. *)
Definition report_exception (ex : exn) (w : World) : World :=
  if debug_on w then print (exn_msg ex) w else w.

Definition report_error (w : World) : World :=
  if debug_on w
  then print (nl +:+ "Terminated with code: " +:+ pretty (exit_code w)
              +:+ " <ERROR>") w
  else w.

(** Lines 242-246: the cleanup pass of the handler. *)
Definition cleanup (cls : AppClass) : Prog :=
  call m_deinit (deinit cls) >>> silently report_error.

(** The [except Exception as ex] clause. *)
Definition handler (cls : AppClass) (ex : exn) : Prog :=
  silently (report_exception ex)
  >>> silently (fun w => with_exit_code (ordinal (run_state w)) w)
  >>> (fun m =>
         if ordinal (run_state (world m)) <? ordinal SHUTTING_DOWN
         then cleanup cls m
         else (m, Ok)).

(** [run()] on a fresh observer.  [Some (m, Ok)]: [run()] returned;
    [Some (m, Raise e)]: [e] left [run()] and reached its caller;
    [None]: the loop outlived the fuel. *)
Definition run (cls : AppClass) (fuel : nat) (w : World)
    : option (Machine * outcome) :=
  match try_body cls fuel (mkMachine _ w []) with
  | None => None
  | Some (m, Ok) => Some (m, Ok)
  | Some (m, Raise ex) => Some (handler cls ex m)
  end.

(** [remove_timers(names)] *)
Definition remove_timers (names : list string) (w : World) : World :=
  foldl (fun w' nm => remove_timer nm w') w names.

(** [start_timers(names)], [stop_timers(names)], [pause_timers(names)],
    [resume_timers(names)] *)
Definition start_timers (names : list string) (w : World) : World :=
  foldl (fun w' nm => start_timer nm w') w names.
Definition stop_timers (names : list string) (w : World) : World :=
  foldl (fun w' nm => stop_timer nm w') w names.
Definition pause_timers (names : list string) (w : World) : World :=
  foldl (fun w' nm => pause_timer nm w') w names.
Definition resume_timers (names : list string) (w : World) : World :=
  foldl (fun w' nm => resume_timer nm w') w names.

(** *** [decode_address(addr, sep)] *)

(** One digit of the [x] presentation type. *)
Definition hex_digit (n : N) : ascii :=
  match n with
  | 0 => "0" | 1 => "1" | 2 => "2" | 3 => "3" | 4 => "4" | 5 => "5"
  | 6 => "6" | 7 => "7" | 8 => "8" | 9 => "9" | 10 => "a" | 11 => "b"
  | 12 => "c" | 13 => "d" | 14 => "e" | _ => "f"
  end%N%char.

(** ["{0:02x}".format(b)] for an element [b] of a [bytes] object. *)
Definition hex2 (b : Byte.byte) : string :=
  String (hex_digit (Byte.to_N b `div` 16)%N)
    (String (hex_digit (Byte.to_N b `mod` 16)%N) "").

(** [s[:-1]] *)
Definition drop_last (s : string) : string :=
  String.substring 0 (String.length s - 1) s.

(** The [for] loop, [s] being the string built so far. *)
Fixpoint decode_loop (addr : list Byte.byte) (sep : string) (s : string)
    : string :=
  match addr with
  | [] => s
  | b :: r => decode_loop r sep (s +:+ (hex2 b +:+ sep))
  end.

Definition decode_address (addr : list Byte.byte) (sep : string) : string :=
  drop_last (decode_loop addr sep "").

(** [shutdown()] of the base class. *)
Definition shutdown : Act := fun w =>
  ((if debug_on w
    then print (nl +:+ "Terminated with code: " +:+ pretty (exit_code w)
                +:+ " <OK>") w
    else w), Ok).

(** The base class itself: the three hooks are [pass]. *)
Definition base : AppClass := mkAppClass _ pass pass pass shutdown.
End Methods.
End FeatherS2.

(** ** Vocabulary of the properties *)

Section Vocabulary.
Context `{Callables}.

(** The test bench of the timer scenarios: before each [update()] call
    the simulated monotonic clock advances by the next increment. *)
Fixpoint drive (self : ObjId) (dts : list Z) : Act :=
  match dts with
  | [] => pass
  | dt :: r => andthen (fun w => Timer.update self (advance dt w)) (drive self r)
  end.

(** The simulated time a list of increments adds up to. *)
Definition total (dts : list Z) : Z := foldr Z.add 0 dts.

(** The accumulator of the timer behind a reference. *)
Definition accumulated (self : ObjId) (w : World) : Z :=
  from_option duration 0 (heap w !! self).

(** The trigger count of the timer behind a reference. *)
Definition fires (self : ObjId) (w : World) : Z :=
  from_option trigger_count 0 (heap w !! self).

(** A callable that returns, leaves every timer object as it found it
    and takes no simulated time. *)
Definition instant (cb : CallbackId) : Prop :=
  forall self at_ w,
    exists w', invoke cb self at_ w = (w', Ok)
               /\ heap w' = heap w /\ clock w' = clock w.

(** The bench of the 1000 ms scenario: four steps of 300 ms. *)
Definition four_steps : list Z :=
  [300 * 1000000; 300 * 1000000; 300 * 1000000; 300 * 1000000].

(** [n] complete iterations of the loop: each one is entered with the
    flag unset and neither the timer pass nor the hook raises. *)
Fixpoint iterate (cls : AppClass) (n : nat) (m : Machine) : option Machine :=
  match n with
  | O => Some m
  | S k =>
      if finished (world m) then None
      else
        match FeatherS2.iteration cls m with
        | (m1, Ok) => iterate cls k m1
        | (_, Raise _) => None
        end
  end.

(** How often a method was invoked. *)
Definition calls_of (meth : Method) (tr : list Event) : nat :=
  length (filter (fun ev => ev = Call meth) tr).

(** The values [run_state] was given, in order. *)
Fixpoint assigned (tr : list Event) : list RunStates :=
  match tr with
  | [] => []
  | Assign s :: r => s :: assigned r
  | Call _ :: r => assigned r
  end.

(** No value is followed by one of lower ordinal. *)
Fixpoint forward_only (l : list RunStates) : bool :=
  match l with
  | [] => true
  | s :: r =>
      match r with
      | [] => true
      | s' :: _ => (ordinal s <=? ordinal s') && forward_only r
      end
  end.

(** A derived class with another [deinit]. *)
Definition with_deinit (d : Act) (cls : AppClass) : AppClass :=
  mkAppClass _ (init cls) (loop cls) d (shutdown cls).

(** What the loop repeats [n] times in the observer's record. *)
Definition loop_events (n : nat) : list Event :=
  concat (replicate n [Call m_update_timers; Call m_loop]).

(** An integer a Python float holds exactly.  [reset()] makes the
    accumulator the float [0.0], and it stays a float until the first
    fire makes it an integer again; sums of integers are exact in a float
    as long as the operands and the result are within 2^53. *)
Definition float_exact (z : Z) : Prop := - 2 ^ 53 <= z <= 2 ^ 53.

(** The fire count and the accumulator a list of increments leads to
    when the increments are gathered until their sum reaches [P6]
    nanoseconds, which is one fire, and gathering starts again from
    zero.  [acc] is what has been gathered so far. *)
Fixpoint gathered (P6 acc : Z) (dts : list Z) : Z * Z :=
  match dts with
  | [] => (0, acc)
  | dt :: r =>
      if P6 <=? acc + dt
      then let '(n, rest) := gathered P6 0 r in (n + 1, rest)
      else gathered P6 (acc + dt) r
  end.

(** What [run()] has recorded when it enters the loop. *)
Definition entry_events : list Event :=
  [Assign STARTING; Call m_startup; Assign NOT_STARTED;
   Assign INITIALISING; Call m_init; Assign LOOPING].

(** The timer dictionary is in order: no name occurs twice, and every
    name leads to a timer object that carries that name. *)
Definition registry_ok (w : World) : Prop :=
  NoDup (dict_keys (timers w))
  /\ forall n id, dict_get n (timers w) = Some id ->
                  exists t, heap w !! id = Some t /\ name t = n.

(** What [start()], [stop()], [pause()] and [resume()] make of the
    attributes of a timer at clock reading [c]. *)
Definition started (c : Z) (t : Timer) : Timer :=
  with_paused false (with_running true
    (with_before c (with_duration 0 (with_trigger_count 0 t)))).
Definition stopped (c : Z) (t : Timer) : Timer :=
  with_before c (with_duration 0 (with_trigger_count 0
    (with_paused false (with_running false t)))).
Definition resumed (c : Z) (t : Timer) : Timer :=
  with_before c (with_paused false t).

(** [sep.join(parts)] *)
Fixpoint join (sep : string) (parts : list string) : string :=
  match parts with
  | [] => ""
  | [p] => p
  | p :: r => p +:+ (sep +:+ join sep r)
  end.
End Vocabulary.

(** ** A bench application

    A small derived class in the manner of [MainApp]: its callbacks count
    their invocations, its loop hook counts frames and calls [finish()]
    at a chosen frame. *)

Module Bench.
Record State := mkState {
  fired : Z;
  frames : nat;
  deinits : nat;
  bus_present : bool;
  lines : list string
}.

Definition fresh : State := mkState 0 0 0 true [].

#[export] Instance outside : Outside := {| U := State; Datetime := Z |}.

Definition on_user (f : State -> State) (w : World) : World :=
  with_user (f (user w)) w.

Definition count_fire (s : State) : State :=
  mkState (fired s + 1) (frames s) (deinits s) (bus_present s) (lines s).
Definition count_frame (s : State) : State :=
  mkState (fired s) (S (frames s)) (deinits s) (bus_present s) (lines s).
Definition count_deinit (s : State) : State :=
  mkState (fired s) (frames s) (S (deinits s)) (bus_present s) (lines s).
Definition write_line (l : string) (s : State) : State :=
  mkState (fired s) (frames s) (deinits s) (bus_present s) (lines s ++ [l]).

(** Callable 0 counts and returns at once; callable 1 counts and takes
    7 ns; every other callable raises. *)
#[export] Instance callables : Callables := {|
  rtc_datetime := fun _ w => clock w `div` 1000000000;
  invoke := fun cb _ _ w =>
    match cb with
    | O => (on_user count_fire w, Ok)
    | S O => (advance 7 (on_user count_fire w), Ok)
    | _ => (w, Raise (Exception "callback failed"))
    end;
  bootstrap := fun s =>
    if bus_present s then (s, false, Ok)
    else (s, false, Raise (Exception "no I2C bus"));
  console_write := write_line
|}.

(** A world as [startup()] leaves it (no timer registered, the finished
    flag unset, exit code 0, run state [NOT_STARTED]), at monotonic
    time 0. *)
Definition w0 : World := mkWorld fresh 0 0 [] false false 0 NOT_STARTED [].

(** The same with the I2C bus missing. *)
Definition w0_no_bus : World :=
  with_user (mkState 0 0 0 false []) w0.

(** The attributes of a timer of period 1000 ms with callable 0, as
    [Timer.__init__] sets them. *)
Definition tick : Timer := mkTimer "tick" 1000 0%nat None 0 false false 0 0.

(** A world whose store holds that timer and nothing else. *)
Definition stopped_timer : World :=
  fst (Timer.new 1000 0%nat (Some "tick") None w0).

(** The same timer started at time 0. *)
Definition one_timer : World := Timer.start 0%nat stopped_timer.

(** Milliseconds as nanoseconds. *)
Definition ms (n : Z) : Z := n * 1000000.

(** [loop()]: count the frame, call [finish()] on frame [n]. *)
Definition loop_until (n : nat) : Act := fun w =>
  let w1 := on_user count_frame w in
  ((if (n <=? frames (user w1))%nat then FeatherS2.finish w1 else w1), Ok).

(** [init()]: register the tick timer and start it. *)
Definition init_tick : Act := fun w =>
  (FeatherS2.start_all_timers
     (fst (FeatherS2.add_timer 1000 0%nat (Some "tick") None w)), Ok).

(** [init()] that calls [finish()]. *)
Definition init_finish : Act := fun w => (FeatherS2.finish w, Ok).

(** [deinit()] that counts its invocations and raises on the first. *)
Definition deinit_flaky : Act := fun w =>
  let w1 := on_user count_deinit w in
  (w1, match deinits (user w) with
       | O => Raise (Exception "broker gone")
       | S _ => Ok
       end).

(** [deinit()] that counts its invocations. *)
Definition deinit_count : Act := fun w => (on_user count_deinit w, Ok).

(** [loop()] that raises on frame [n]. *)
Definition loop_fault (n : nat) : Act := fun w =>
  let w1 := on_user count_frame w in
  (w1, if (n <=? frames (user w1))%nat
       then Raise (Exception "sensor failed") else Ok).

Definition app (n : nat) : AppClass :=
  mkAppClass _ init_tick (loop_until n) deinit_count FeatherS2.shutdown.

(** The application with an [init] that calls [finish()]. *)
Definition app_finish_in_init (n : nat) : AppClass :=
  mkAppClass _ init_finish (loop_until n) deinit_count FeatherS2.shutdown.

(** The application with no [init] at all. *)
Definition app_no_init (n : nat) : AppClass :=
  mkAppClass _ pass (loop_until n) deinit_count FeatherS2.shutdown.

(** The application with the [deinit] that raises once. *)
Definition app_flaky_deinit (n : nat) : AppClass :=
  mkAppClass _ init_tick (loop_until n) deinit_flaky FeatherS2.shutdown.

(** The application whose loop hook raises on frame [n]. *)
Definition app_loop_fault (n : nat) : AppClass :=
  mkAppClass _ init_tick (loop_fault n) deinit_count FeatherS2.shutdown.

(** [init()] that registers and starts a timer of period 0 whose
    callable raises. *)
Definition init_bad_timer : Act := fun w =>
  (FeatherS2.start_all_timers
     (fst (FeatherS2.add_timer 0 2%nat (Some "bad") None w)), Ok).

(** The application whose timer callback raises in the first pass. *)
Definition app_callback_fault : AppClass :=
  mkAppClass _ init_bad_timer (loop_until 3) deinit_count FeatherS2.shutdown.


(** A world that holds one timer registered as ["tick"]. *)
Definition with_tick : World :=
  fst (FeatherS2.add_timer 1000 0%nat (Some "tick") None w0).

(** A world in which a timer was registered under the explicit name
    ["Timer-0"] while the name counter is still 0. *)
Definition with_explicit_timer_0 : World :=
  fst (FeatherS2.add_timer 5 0%nat (Some "Timer-0") None w0).

(** A world in which twelve timers were registered without a name, so
    that the name counter stands at 12, and then one under the explicit
    name ["Timer-12"]. *)
Definition twelve_unnamed : World :=
  Nat.iter 12 (fun w => fst (FeatherS2.add_timer 1 0%nat None None w)) w0.

Definition with_explicit_timer_12 : World :=
  fst (FeatherS2.add_timer 5 0%nat (Some "Timer-12") None twelve_unnamed).

(** The timer of [one_timer] after one [update()] at 300 ms. *)
Definition after_one_step : World := fst (drive 0%nat [ms 300] one_timer).

(** The timer of [one_timer] after the four steps of the scenario, when
    it has fired once. *)
Definition fired_once : World := fst (drive 0%nat four_steps one_timer).

(** A started timer of period 1000 ms whose callable raises, one period
    after its start. *)
Definition bad_timer_due : World :=
  advance (ms 1000)
    (Timer.start 0%nat (fst (Timer.new 1000 2%nat (Some "bad") None w0))).

(** [init()] that raises. *)
Definition init_fault : Act := fun w =>
  (w, Raise (Exception "display not found")).

(** The application whose [init] raises. *)
Definition app_init_fault : AppClass :=
  mkAppClass _ init_fault (loop_until 3) deinit_count FeatherS2.shutdown.

(** A MAC address. *)
Definition mac : list Byte.byte :=
  [Byte.x7c; Byte.xdf; Byte.xa1; Byte.x00; Byte.x3c; Byte.x0e].
End Bench.

(** * Properties *)

(** ** Dictionaries *)

Section DictFacts.
Context {V : Type}.
Implicit Types (d : dict V) (k : string) (v : V).

Lemma dict_get_set_eq k v d : dict_get k (dict_set k v d) = Some v.
Proof.
  induction d as [|[k' v'] r IH]; simpl.
  - by rewrite decide_True.
  - destruct (decide (k = k')) as [->|Hne]; simpl.
    + by rewrite decide_True.
    + by rewrite decide_False.
Qed.

Lemma dict_get_set_ne k k' v d :
  k <> k' -> dict_get k' (dict_set k v d) = dict_get k' d.
Proof.
  intros Hne. induction d as [|[k0 v0] r IH]; simpl.
  - rewrite decide_False; [done | congruence].
  - destruct (decide (k = k0)) as [->|Hk]; simpl.
    + rewrite !decide_False; [done | congruence | congruence].
    + destruct (decide (k' = k0)); [done | apply IH].
Qed.

Lemma dict_mem_get k d v : dict_get k d = Some v -> dict_mem k d = true.
Proof. unfold dict_mem. by intros ->. Qed.
End DictFacts.

(** ** The store *)

Section StoreFacts.
Context `{Callables}.
Implicit Types (w : World) (t : Timer) (self : ObjId).

Lemma lookup_on_obj self f w :
  heap (on_obj self f w) !! self = f <$> heap w !! self.
Proof. apply list_lookup_alter_eq. Qed.

Lemma lookup_on_obj_ne self other f w :
  self <> other -> heap (on_obj self f w) !! other = heap w !! other.
Proof. intros Hne. by apply list_lookup_alter_ne. Qed.

Lemma truthy_nonempty (n : string) : n <> "" -> truthy (Some n) = true.
Proof.
  intros Hne. simpl. destruct (String.eqb_spec n ""); [done | reflexivity].
Qed.
End StoreFacts.

(** ** Registration of timers *)

Section Registration.
Context `{Callables}.

(** C7.  When the timer dictionary already holds an entry under the
    non-empty name [n], [add_timer] called with that name returns [None]
    and the whole world is left as it was: the dictionary, the store with
    every attribute of the timer registered under [n], and the name
    counter.  The operation has no raising path. *)
Theorem add_timer_taken_name_refused (w : World) (n : string) (old : ObjId)
    (p : Z) (cb : CallbackId) (r : option RtcRef) :
  dict_get n (timers w) = Some old ->
  n <> "" ->
  FeatherS2.add_timer p cb (Some n) r w = (w, None).
Proof.
  intros Hget Hne. unfold FeatherS2.add_timer.
  rewrite (truthy_nonempty n Hne), (dict_mem_get _ _ _ Hget). reflexivity.
Qed.

(** C10.  When the name is omitted or falsy, [add_timer] never returns
    [None]: without looking at the dictionary it allocates a timer whose
    name is ["Timer-"] followed by the decimal digits of the name counter,
    advances the counter and binds that name to the new timer, so a timer
    already registered under that very name loses its entry to the new
    one. *)
Theorem add_timer_unnamed_always_registers (w : World) (nm : option string)
    (p : Z) (cb : CallbackId) (r : option RtcRef) :
  truthy nm = false ->
  let key := "Timer-" +:+ pretty (name_counter w) in
  let fresh := length (heap w) in
  exists w',
    FeatherS2.add_timer p cb nm r w = (w', Some fresh)
    /\ timers w' = dict_set key fresh (timers w)
    /\ dict_get key (timers w') = Some fresh
    /\ heap w' = heap w ++ [mkTimer key p cb r 0 false false 0 0]
    /\ name_counter w' = (name_counter w + 1)%N
    /\ (forall old, dict_get key (timers w) = Some old ->
                    (old < length (heap w))%nat ->
                    dict_get key (timers w') <> Some old
                    /\ heap w' !! old = heap w !! old).
Proof.
  intros Hfalsy key fresh.
  unfold FeatherS2.add_timer, Timer.new. rewrite Hfalsy. simpl.
  rewrite list_lookup_middle by reflexivity. simpl.
  eexists. split; [reflexivity|]. simpl.
  repeat split; try reflexivity.
  - apply dict_get_set_eq.
  - rewrite dict_get_set_eq. intros [= <-]. unfold fresh in *. lia.
  - by rewrite lookup_app_l.
Qed.
End Registration.

(** ** The timer *)

Section TimerFacts.
Context `{Callables}.
Implicit Types (w : World) (t : Timer) (self : ObjId).


(** One [update()] of a started timer with an instant callback, [dt]
    after the previous one: either the period is not reached and [dt] is
    added to the accumulator, or the timer fires and the accumulator is 0. *)
Lemma update_instant_step self w t dt :
  heap w !! self = Some t ->
  running t = true ->
  paused t = false ->
  before t = clock w ->
  instant (callback t) ->
  exists w' t',
    Timer.update self (advance dt w) = (w', Ok)
    /\ heap w' !! self = Some t'
    /\ clock w' = clock w + dt
    /\ running t' = true /\ paused t' = false /\ before t' = clock w'
    /\ period t' = period t /\ callback t' = callback t
    /\ ((duration t + dt < period t * 1000000
         /\ duration t' = duration t + dt
         /\ trigger_count t' = trigger_count t)
        \/ (period t * 1000000 <= duration t + dt
            /\ duration t' = 0
            /\ trigger_count t' = trigger_count t + 1)).
Proof.
  intros Hobj Hrun Hpause Hbefore Hinst.
  unfold Timer.update. simpl. rewrite Hobj, Hrun, Hpause. simpl.
  unfold monotonic_ns. simpl. rewrite Hbefore.
  replace (duration t + (clock w + dt - clock w)) with (duration t + dt) by lia.
  destruct (Z.leb_spec (period t * 1000000) (duration t + dt)) as [Hfire|Hwait].
  - set (w1 := on_obj self (with_duration (duration t + dt)) (advance dt w)).
    destruct (Hinst self (Timer.triggered_at t w1) w1)
      as (w2 & Hinvoke & Hheap & Hclock).
    rewrite Hinvoke. eexists _, _. split; [reflexivity|].
    rewrite lookup_on_obj, Hheap. unfold w1. rewrite lookup_on_obj. simpl.
    rewrite Hobj. simpl. split; [reflexivity|].
    rewrite Hclock. simpl.
    repeat split; try done. right. repeat split; [done | lia].
  - eexists _, _. split; [reflexivity|].
    rewrite lookup_on_obj, lookup_on_obj. simpl. rewrite Hobj. simpl.
    split; [reflexivity|]. repeat split; try done. left. done.
Qed.


End TimerFacts.

(** ** Firing rate *)

Section Drift.
Context `{Callables}.
Implicit Types (w : World) (t : Timer) (self : ObjId).

Lemma start_lookup self w t :
  heap w !! self = Some t ->
  heap (Timer.start self w) !! self = Some (started (clock w) t).
Proof.
  intros Hobj. unfold Timer.start, Timer.reset.
  by rewrite lookup_on_obj, lookup_on_obj, Hobj.
Qed.

(** A started timer with an instant callback, driven through a list of
    steps: a property of the number of steps, the time passed, the
    accumulator and the trigger count that holds at the start and is kept
    by a step that waits and by a step that fires holds at the end. *)
Lemma drive_instant_invariant self (P6 : Z) (cb : CallbackId)
    (Q : Z -> Prop) (Inv : Z -> Z -> Z -> Z -> Prop) :
  instant cb ->
  (forall s e d c dt, Inv s e d c -> Q dt -> d + dt < P6 ->
                      Inv (s + 1) (e + dt) (d + dt) c) ->
  (forall s e d c dt, Inv s e d c -> Q dt -> P6 <= d + dt ->
                      Inv (s + 1) (e + dt) 0 (c + 1)) ->
  forall dts, Forall Q dts ->
  forall w t s e,
    heap w !! self = Some t ->
    running t = true -> paused t = false -> before t = clock w ->
    period t * 1000000 = P6 -> callback t = cb ->
    Inv s e (duration t) (trigger_count t) ->
    exists w' t',
      drive self dts w = (w', Ok)
      /\ heap w' !! self = Some t'
      /\ clock w' = clock w + total dts
      /\ Inv (s + Z.of_nat (length dts)) (e + total dts)
             (duration t') (trigger_count t').
Proof.
  intros Hinst Hwait Hfire dts Hdts.
  induction Hdts as [|dt r Hdt _ IH]; intros w t s e Hobj Hrun Hp Hb HP Hcb HInv.
  - exists w, t. unfold total. simpl. rewrite !Z.add_0_r. done.
  - destruct (update_instant_step self w t dt Hobj Hrun Hp Hb)
      as (w1 & t1 & Hu & Ho1 & Hc1 & Hr1 & Hp1 & Hb1 & HP1 & Hcb1 & Hcase);
      [by rewrite Hcb|].
    assert (HInv1 : Inv (s + 1) (e + dt) (duration t1) (trigger_count t1)).
    { destruct Hcase as [(Hlt & -> & ->) | (Hge & -> & ->)].
      - apply (Hwait s e (duration t) (trigger_count t) dt); [done | done | lia].
      - apply (Hfire s e (duration t) (trigger_count t) dt); [done | done | lia]. }
    destruct (IH w1 t1 (s + 1) (e + dt) Ho1 Hr1 Hp1 Hb1)
      as (w' & t' & Hdrive & Ho' & Hc' & HInv'); [congruence | congruence | done |].
    exists w', t'. simpl drive. unfold andthen. rewrite Hu, Hdrive.
    split; [done|]. split; [done|].
    rewrite length_cons, Nat2Z.inj_succ. unfold total in *. simpl foldr.
    split; [lia|].
    replace (s + Z.succ (Z.of_nat (length r))) with (s + 1 + Z.of_nat (length r))
      by lia.
    replace (e + (dt + foldr Z.add 0 r)) with (e + dt + foldr Z.add 0 r) by lia.
    exact HInv'.
Qed.

(** A timer with an instant callback, driven through a list of steps,
    counts and accumulates as [gathered] says. *)
Lemma drive_gathered self dts :
  forall w t,
    heap w !! self = Some t ->
    running t = true -> paused t = false -> before t = clock w ->
    instant (callback t) ->
    exists w' t',
      drive self dts w = (w', Ok)
      /\ heap w' !! self = Some t'
      /\ trigger_count t'
         = trigger_count t + fst (gathered (period t * 1000000) (duration t) dts)
      /\ duration t' = snd (gathered (period t * 1000000) (duration t) dts).
Proof.
  induction dts as [|dt r IH]; intros w t Hobj Hrun Hp Hb Hinst.
  - exists w, t. simpl. repeat split; try done. lia.
  - destruct (update_instant_step self w t dt Hobj Hrun Hp Hb Hinst)
      as (w1 & t1 & Hu & Ho1 & Hc1 & Hr1 & Hp1 & Hb1 & HP1 & Hcb1 & Hcase).
    destruct (IH w1 t1 Ho1 Hr1 Hp1 Hb1) as (w' & t' & Hdrive & Ho' & Htc & Hd);
      [by rewrite Hcb1|].
    exists w', t'. simpl drive. unfold andthen. rewrite Hu, Hdrive.
    split; [done|]. split; [done|].
    rewrite HP1 in Htc, Hd. cbn [gathered].
    destruct Hcase as [(Hlt & Hd1 & Htc1) | (Hge & Hd1 & Htc1)].
    + destruct (Z.leb_spec (period t * 1000000) (duration t + dt)); [lia|].
      rewrite Hd1, Htc1 in *. done.
    + destruct (Z.leb_spec (period t * 1000000) (duration t + dt)); [|lia].
      rewrite Hd1, Htc1 in *.
      destruct (gathered (period t * 1000000) 0 r) as [n rest]. simpl in *.
      split; lia.
Qed.

(** C2, as the code has it.  For a period above zero, a started timer
    whose callback returns, leaves the timers alone and takes no
    simulated time, and positive increments of the simulated clock of at
    most [D] nanoseconds each, the period and [D] together being within
    the range in which the float accumulator is exact: every [update()]
    returns; an [update()] fires when the time gathered since the last
    fire (or since [start()]) has reached the period, and gathering starts
    again from zero, so the number of fires and the accumulator are those
    of [gathered]; the number of fires is at most the whole number of
    periods in the time that has passed, at most the number of
    [update()] calls, never negative, and large enough that the time
    that has passed is less than one period plus [D] for every fire and
    once more.  It is not fixed by the total time: what is gathered
    beyond the period is not carried over. *)
Theorem fires_follow_the_gathered_time self w t dts (D : Z) :
  heap w !! self = Some t ->
  0 < period t ->
  0 <= D ->
  instant (callback t) ->
  Forall (fun dt => 0 < dt <= D) dts ->
  float_exact (period t * 1000000 + D) ->
  let P6 := period t * 1000000 in
  exists w',
    drive self dts (Timer.start self w) = (w', Ok)
    /\ clock w' - clock w = total dts
    /\ fires self w' = fst (gathered P6 0 dts)
    /\ accumulated self w' = snd (gathered P6 0 dts)
    /\ 0 <= fires self w'
    /\ fires self w' <= total dts `div` P6
    /\ fires self w' <= Z.of_nat (length dts)
    /\ total dts < (fires self w' + 1) * (P6 + D).
Proof.
  intros Hobj HP HD Hinst Hdts _ P6.
  pose proof (start_lookup self w t Hobj) as Hobj0.
  destruct (drive_gathered self dts (Timer.start self w) (started (clock w) t)
              Hobj0 eq_refl eq_refl eq_refl Hinst)
    as (w' & t' & Hdrive & Hobj' & Htc & Hd).
  set (Inv := fun (s e d c : Z) =>
                0 <= d < P6 /\ 0 <= c <= s
                /\ c * P6 + d <= e <= c * (P6 + D) + d).
  assert (Hwait : forall s e d c dt,
             Inv s e d c -> 0 < dt <= D -> d + dt < P6 ->
             Inv (s + 1) (e + dt) (d + dt) c).
  { unfold Inv. intros s e d c dt (Hd0 & Hc0 & He0) Hdt Hlt. lia. }
  assert (Hfire : forall s e d c dt,
             Inv s e d c -> 0 < dt <= D -> P6 <= d + dt ->
             Inv (s + 1) (e + dt) 0 (c + 1)).
  { unfold Inv. intros s e d c dt (Hd0 & Hc0 & He0) Hdt Hge. nia. }
  assert (HInv0 : Inv 0 0 0 0) by (unfold Inv, P6; lia).
  destruct (drive_instant_invariant self P6 (callback t)
              (fun dt => 0 < dt <= D) Inv Hinst Hwait Hfire dts Hdts
              (Timer.start self w) (started (clock w) t) 0 0
              Hobj0 eq_refl eq_refl eq_refl eq_refl eq_refl HInv0)
    as (w2 & t2 & Hdrive2 & Hobj2 & Hclock2 & Hd2 & Hc2 & He2).
  rewrite Hdrive in Hdrive2. injection Hdrive2 as <-.
  rewrite Hobj' in Hobj2. injection Hobj2 as <-.
  exists w'. split; [exact Hdrive|].
  change (clock (Timer.start self w)) with (clock w) in Hclock2.
  split; [lia|]. unfold fires, accumulated. rewrite Hobj'. simpl.
  simpl in Htc, Hd. fold P6 in Htc, Hd.
  split; [lia|]. split; [exact Hd|].
  rewrite !Z.add_0_l in *.
  split; [lia|]. split; [apply Z.div_le_lower_bound; [unfold P6; lia | nia]|].
  split; [lia | nia].
Qed.
End Drift.

(** ** The life cycle *)

Section LifeCycle.
Context `{Callables}.
Implicit Types (w : World) (m : Machine) (cls : AppClass) (tr : list Event).

Lemma calls_of_app meth tr tr' :
  calls_of meth (tr ++ tr') = (calls_of meth tr + calls_of meth tr')%nat.
Proof. unfold calls_of. by rewrite filter_app, length_app. Qed.

Lemma calls_of_other meth meth' :
  meth <> meth' -> calls_of meth [Call meth'] = 0%nat.
Proof.
  intros Hne. unfold calls_of.
  rewrite filter_cons_False; [done | congruence].
Qed.

Lemma calls_of_loop_events n :
  calls_of m_update_timers (loop_events n) = n
  /\ calls_of m_loop (loop_events n) = n.
Proof.
  induction n as [|n [IHu IHl]]; [done|].
  unfold loop_events in *. simpl replicate. simpl concat.
  change (?a :: ?b :: ?r) with ([a; b] ++ r).
  rewrite !calls_of_app, IHu, IHl. done.
Qed.

Lemma loop_events_S n :
  loop_events (S n) = loop_events n ++ [Call m_update_timers; Call m_loop].
Proof.
  induction n as [|n IH]; [done|].
  change (loop_events (S (S n)))
    with ([Call m_update_timers; Call m_loop] ++ loop_events (S n)).
  rewrite IH at 1. by rewrite app_assoc.
Qed.

(** More fuel does not change what the loop returns. *)
Lemma looping_fuel_mono cls fuel fuel' m r :
  FeatherS2.looping cls fuel m = Some r ->
  (fuel <= fuel')%nat ->
  FeatherS2.looping cls fuel' m = Some r.
Proof.
  revert fuel' m. induction fuel as [|fuel IH]; intros fuel' m Hrun Hle.
  - simpl in Hrun. destruct fuel'; simpl;
      destruct (finished (world m)); done.
  - destruct fuel' as [|fuel']; [lia|]. simpl in *.
    destruct (finished (world m)); [done|].
    destruct (FeatherS2.iteration cls m) as [m1 [|e]]; [|done].
    apply IH; [done | lia].
Qed.

(** One iteration records the timer pass and, if that returned, the
    hook. *)
Lemma iteration_ok_trace cls m m1 :
  FeatherS2.iteration cls m = (m1, Ok) ->
  trace m1 = trace m ++ [Call m_update_timers; Call m_loop].
Proof.
  unfold FeatherS2.iteration, pthen, call.
  destruct (FeatherS2.update_timers (world m)) as [w1 [|e]]; [|done].
  simpl. destruct (loop cls w1) as [w2 [|e]]; [|done].
  intros [= <-]. simpl. by rewrite <- app_assoc.
Qed.

Lemma iteration_calls cls m m1 o meth :
  meth <> m_update_timers -> meth <> m_loop ->
  FeatherS2.iteration cls m = (m1, o) ->
  calls_of meth (trace m1) = calls_of meth (trace m).
Proof.
  intros Hu Hl. unfold FeatherS2.iteration, pthen, call.
  destruct (FeatherS2.update_timers (world m)) as [w1 [|e]]; simpl.
  - destruct (loop cls w1) as [w2 o2]. intros [= <- _]. simpl.
    rewrite !calls_of_app, !calls_of_other by done. lia.
  - intros [= <- _]. simpl.
    rewrite !calls_of_app, !calls_of_other by done. lia.
Qed.

Lemma looping_calls cls fuel meth :
  meth <> m_update_timers -> meth <> m_loop ->
  forall m m1 o,
    FeatherS2.looping cls fuel m = Some (m1, o) ->
    calls_of meth (trace m1) = calls_of meth (trace m).
Proof.
  intros Hu Hl. induction fuel as [|fuel IH]; intros m m1 o; simpl;
    destruct (finished (world m)); try done; try (by intros [= <- _]).
  destruct (FeatherS2.iteration cls m) as [m2 [|e]] eqn:Hit.
  - intros Hrest. rewrite (IH _ _ _ Hrest).
    by apply (iteration_calls cls m m2 Ok).
  - intros [= <- _]. by apply (iteration_calls cls m m2 (Raise e)).
Qed.

(** [n] complete iterations that leave the flag set are what the loop
    does, whatever fuel of at least [n] it is given. *)
Lemma iterate_looping cls n :
  forall m mN fuel,
    iterate cls n m = Some mN ->
    finished (world mN) = true ->
    (n <= fuel)%nat ->
    FeatherS2.looping cls fuel m = Some (mN, Ok).
Proof.
  induction n as [|n IH]; intros m mN fuel Hit Hfin Hle.
  - simpl in Hit. injection Hit as ->.
    destruct fuel; simpl; by rewrite Hfin.
  - destruct fuel as [|fuel]; [lia|]. simpl in *.
    destruct (finished (world m)); [done|].
    destruct (FeatherS2.iteration cls m) as [m1 [|e]]; [|done].
    apply IH; [done | done | lia].
Qed.

Lemma iterate_trace cls n :
  forall m mN,
    iterate cls n m = Some mN ->
    trace mN = trace m ++ loop_events n.
Proof.
  induction n as [|n IH]; intros m mN Hit.
  - simpl in Hit. injection Hit as ->. by rewrite app_nil_r.
  - simpl in Hit. destruct (finished (world m)); [done|].
    destruct (FeatherS2.iteration cls m) as [m1 [|e]] eqn:Hstep; [|done].
    rewrite (IH _ _ Hit), (iteration_ok_trace _ _ _ Hstep), <- app_assoc.
    done.
Qed.

(** A fault of the environment bootstrap leaves [before_loop] at once. *)
Lemma before_loop_bootstrap_fault cls w u dbg e :
  bootstrap (user w) = (u, dbg, Raise e) ->
  FeatherS2.before_loop cls (mkMachine _ w [])
  = (mkMachine _ (with_debug_on dbg (with_user u (with_run_state STARTING w)))
               [Assign STARTING; Call m_startup],
     Raise e).
Proof.
  intros Hboot.
  unfold FeatherS2.before_loop, pthen, assign, FeatherS2.startup. simpl.
  by rewrite Hboot.
Qed.

(** When [before_loop] returns, the record is [entry_events] and the
    state is [LOOPING]. *)
Lemma before_loop_ok cls w m0 :
  FeatherS2.before_loop cls (mkMachine _ w []) = (m0, Ok) ->
  trace m0 = entry_events /\ run_state (world m0) = LOOPING.
Proof.
  unfold FeatherS2.before_loop, pthen, assign, FeatherS2.startup, call, silently.
  simpl. destruct (bootstrap (user w)) as [[u dbg] [|e]]; [|done]. simpl.
  destruct (init cls _) as [wi [|e]]; [|done]. simpl.
  by intros [= <-].
Qed.

(** The handler invokes [deinit] at most once and nothing else. *)
Lemma handler_trace cls e m :
  exists rest,
    trace (fst (FeatherS2.handler cls e m)) = trace m ++ rest
    /\ (rest = [] \/ rest = [Call m_deinit]).
Proof.
  unfold FeatherS2.handler, FeatherS2.cleanup, pthen, silently, call. simpl.
  destruct (_ <? _).
  - match goal with
    | |- context [deinit cls ?x] => destruct (deinit cls x) as [wd [|e']]
    end; simpl; eauto.
  - exists []. rewrite app_nil_r. eauto.
Qed.

(** After the loop, [run()] goes on to [DEINITIALISING] and [deinit];
    whatever follows, neither the timer pass nor the loop hook is
    invoked again. *)
Lemma run_after_loop cls fuel w m0 m1 :
  FeatherS2.before_loop cls (mkMachine _ w []) = (m0, Ok) ->
  FeatherS2.looping cls fuel m0 = Some (m1, Ok) ->
  exists m' o' rest,
    FeatherS2.run cls fuel w = Some (m', o')
    /\ trace m' = trace m1 ++ Assign DEINITIALISING :: Call m_deinit :: rest
    /\ calls_of m_update_timers rest = 0%nat
    /\ calls_of m_loop rest = 0%nat.
Proof.
  intros Hentry Hloop.
  unfold FeatherS2.run, FeatherS2.try_body, FeatherS2.through_loop.
  rewrite Hentry, Hloop.
  unfold FeatherS2.after_loop, pthen, assign, call. simpl.
  destruct (deinit cls _) as [wd [|e]]; simpl.
  - destruct (shutdown cls _) as [ws [|e]]; simpl.
    + eexists _, _, _. split; [reflexivity|]. simpl.
      rewrite <- !app_assoc. simpl. done.
    + match goal with
      | |- context [FeatherS2.handler cls e ?mm] =>
          destruct (handler_trace cls e mm) as (rest & Htr & Hrest);
          destruct (FeatherS2.handler cls e mm) as [m' o']
      end.
      simpl in Htr.
      eexists _, _, _. split; [reflexivity|]. rewrite Htr.
      rewrite <- !app_assoc. simpl.
      split; [reflexivity|]. destruct Hrest as [-> | ->]; done.
  - match goal with
    | |- context [FeatherS2.handler cls e ?mm] =>
        destruct (handler_trace cls e mm) as (rest & Htr & Hrest);
        destruct (FeatherS2.handler cls e mm) as [m' o']
    end.
    simpl in Htr.
    eexists _, _, _. split; [reflexivity|]. rewrite Htr.
    rewrite <- !app_assoc. simpl.
    split; [reflexivity|]. destruct Hrest as [-> | ->]; done.
Qed.
(** Whatever the loop does, it only adds to the record. *)
Lemma looping_extends cls fuel :
  forall m m1 o,
    FeatherS2.looping cls fuel m = Some (m1, o) ->
    exists ext, trace m1 = trace m ++ ext.
Proof.
  induction fuel as [|fuel IH]; intros m m1 o; simpl;
    destruct (finished (world m)); try done;
    try (intros [= <- _]; exists []; by rewrite app_nil_r).
  unfold FeatherS2.iteration, pthen, call.
  destruct (FeatherS2.update_timers (world m)) as [w1 [|e]]; simpl.
  - destruct (loop cls w1) as [w2 [|e]]; simpl.
    + intros Hrest. destruct (IH _ _ _ Hrest) as (ext & ->). simpl.
      rewrite <- !app_assoc. eauto.
    + intros [= <- _]. simpl. rewrite <- !app_assoc. eauto.
  - intros [= <- _]. simpl. eauto.
Qed.

Lemma after_loop_extends cls m :
  exists ext, trace (fst (FeatherS2.after_loop cls m)) = trace m ++ ext.
Proof.
  unfold FeatherS2.after_loop, pthen, assign, call. simpl.
  destruct (deinit cls _) as [wd [|e]]; simpl.
  - destruct (shutdown cls _) as [ws o]; simpl. rewrite <- !app_assoc. eauto.
  - rewrite <- !app_assoc. eauto.
Qed.

(** In every run whose environment bootstrap returns, the first two
    values [run_state] is given are [STARTING] and then [NOT_STARTED]. *)
Lemma run_state_reset_in_every_run cls fuel w u dbg m o :
  bootstrap (user w) = (u, dbg, Ok) ->
  FeatherS2.run cls fuel w = Some (m, o) ->
  exists ext,
    trace m = [Assign STARTING; Call m_startup; Assign NOT_STARTED] ++ ext.
Proof.
  intros Hboot.
  assert (Hentry : exists m0 o0 ext0,
             FeatherS2.before_loop cls (mkMachine _ w []) = (m0, o0)
             /\ trace m0
                = [Assign STARTING; Call m_startup; Assign NOT_STARTED] ++ ext0).
  { unfold FeatherS2.before_loop, pthen, assign, FeatherS2.startup, call,
      silently. simpl. rewrite Hboot. simpl.
    destruct (init cls _) as [wi [|e]]; simpl; eauto. }
  destruct Hentry as (m0 & o0 & ext0 & Hentry & Htr0).
  unfold FeatherS2.run, FeatherS2.try_body, FeatherS2.through_loop.
  rewrite Hentry. destruct o0 as [|e0].
  - destruct (FeatherS2.looping cls fuel m0) as [[m1 [|e1]]|] eqn:Hloop; [| |done].
    + destruct (looping_extends _ _ _ _ _ Hloop) as (ext1 & Htr1).
      destruct (after_loop_extends cls m1) as (ext2 & Htr2).
      destruct (FeatherS2.after_loop cls m1) as [m2 [|e2]]; simpl in Htr2.
      * intros [= <- _]. rewrite Htr2, Htr1, Htr0, <- !app_assoc. eauto.
      * destruct (handler_trace cls e2 m2) as (ext3 & Htr3 & _).
        destruct (FeatherS2.handler cls e2 m2) as [m3 o3]. simpl in Htr3.
        intros [= <- _]. rewrite Htr3, Htr2, Htr1, Htr0, <- !app_assoc. eauto.
    + destruct (looping_extends _ _ _ _ _ Hloop) as (ext1 & Htr1).
      destruct (handler_trace cls e1 m1) as (ext3 & Htr3 & _).
      destruct (FeatherS2.handler cls e1 m1) as [m3 o3]. simpl in Htr3.
      intros [= <- _]. rewrite Htr3, Htr1, Htr0, <- !app_assoc. eauto.
  - destruct (handler_trace cls e0 m0) as (ext3 & Htr3 & _).
    destruct (FeatherS2.handler cls e0 m0) as [m3 o3]. simpl in Htr3.
    intros [= <- _]. rewrite Htr3, Htr0, <- !app_assoc. eauto.
Qed.
End LifeCycle.

(** ** Faults *)

Section Faults.
Context `{Callables}.
Implicit Types (w : World) (m : Machine) (cls : AppClass).

Lemma run_state_report_exception e w :
  run_state (FeatherS2.report_exception e w) = run_state w.
Proof. unfold FeatherS2.report_exception. by destruct (debug_on w). Qed.

(** What the handler does when the state it finds is below
    [SHUTTING_DOWN]: it sets the exit code to the ordinal of that state
    and makes the cleanup pass. *)
Lemma handler_before_shutdown cls e m :
  ordinal (run_state (world m)) < ordinal SHUTTING_DOWN ->
  FeatherS2.handler cls e m
  = FeatherS2.cleanup cls
      (mkMachine _
         (with_exit_code (ordinal (run_state (world m)))
            (FeatherS2.report_exception e (world m)))
         (trace m)).
Proof.
  intros Hlt. unfold FeatherS2.handler, pthen, silently. simpl.
  rewrite run_state_report_exception.
  change (ordinal SHUTTING_DOWN) with 6 in Hlt.
  destruct (Z.ltb_spec (ordinal (run_state (world m))) 6); [done | lia].
Qed.

(** The cleanup pass is one invocation of [deinit]; its outcome is the
    outcome of the pass. *)
Lemma cleanup_spec cls m :
  exists wd,
    deinit cls (world m) = (wd, snd (FeatherS2.cleanup cls m))
    /\ trace (fst (FeatherS2.cleanup cls m)) = trace m ++ [Call m_deinit]
    /\ world (fst (FeatherS2.cleanup cls m))
       = match snd (FeatherS2.cleanup cls m) with
         | Ok => FeatherS2.report_error wd
         | Raise _ => wd
         end.
Proof.
  unfold FeatherS2.cleanup, pthen, call, silently.
  destruct (deinit cls (world m)) as [wd [|e]]; simpl; eauto.
Qed.

(** C4.  When the environment bootstrap of [startup()] raises, [run()]
    skips [init], the loop and [shutdown]: it records nothing but the
    assignment of [STARTING], the call of [startup] and one call of
    [deinit].  The exit code is the ordinal of [STARTING] when [deinit]
    is entered, and what [run()] does next (return or let a fault
    through) is what that one [deinit] call does. *)
Theorem bootstrap_fault_exit_code_and_cleanup cls fuel w u dbg e :
  bootstrap (user w) = (u, dbg, Raise e) ->
  let w_h :=
    with_exit_code (ordinal STARTING)
      (FeatherS2.report_exception e
         (with_debug_on dbg (with_user u (with_run_state STARTING w)))) in
  exists m' o' wd,
    FeatherS2.run cls fuel w = Some (m', o')
    /\ trace m' = [Assign STARTING; Call m_startup; Call m_deinit]
    /\ exit_code w_h = ordinal STARTING
    /\ deinit cls w_h = (wd, o')
    /\ world m' = match o' with
                  | Ok => FeatherS2.report_error wd
                  | Raise _ => wd
                  end.
Proof.
  intros Hboot w_h.
  unfold FeatherS2.run, FeatherS2.try_body, FeatherS2.through_loop.
  rewrite (before_loop_bootstrap_fault cls w u dbg e Hboot).
  rewrite handler_before_shutdown by (simpl; lia). simpl world. simpl trace.
  change (ordinal STARTING) with 2.
  match goal with
  | |- context [FeatherS2.cleanup cls ?mm] =>
      destruct (cleanup_spec cls mm) as (wd & Hd & Htr & Hw);
      destruct (FeatherS2.cleanup cls mm) as [m' o']
  end.
  simpl in *. exists m', o', wd. done.
Qed.

(** C8.  When the loop ends in a fault (raised by a timer callback
    during the timer pass or by the loop hook) and the state is
    [LOOPING], then, for any fuel that lets the loop get that far,
    [run()] sets the exit code to the ordinal of [LOOPING] and then
    invokes [deinit]; that is the only invocation of [deinit] in the
    whole run, and its outcome is the outcome of [run()]. *)
Theorem loop_fault_exit_code_and_cleanup cls fuel fuel' w m0 m1 e :
  FeatherS2.before_loop cls (mkMachine _ w []) = (m0, Ok) ->
  FeatherS2.looping cls fuel m0 = Some (m1, Raise e) ->
  run_state (world m1) = LOOPING ->
  (fuel <= fuel')%nat ->
  let w_h :=
    with_exit_code (ordinal LOOPING)
      (FeatherS2.report_exception e (world m1)) in
  exists m' o' wd,
    FeatherS2.run cls fuel' w = Some (m', o')
    /\ trace m' = trace m1 ++ [Call m_deinit]
    /\ calls_of m_deinit (trace m') = 1%nat
    /\ exit_code w_h = ordinal LOOPING
    /\ deinit cls w_h = (wd, o')
    /\ world m' = match o' with
                  | Ok => FeatherS2.report_error wd
                  | Raise _ => wd
                  end.
Proof.
  intros Hentry Hloop Hstate Hfuel w_h.
  pose proof (looping_fuel_mono _ _ _ _ _ Hloop Hfuel) as Hloop'.
  unfold FeatherS2.run, FeatherS2.try_body, FeatherS2.through_loop.
  rewrite Hentry, Hloop'.
  rewrite handler_before_shutdown by (rewrite Hstate; simpl; lia).
  rewrite Hstate.
  match goal with
  | |- context [FeatherS2.cleanup cls ?mm] =>
      destruct (cleanup_spec cls mm) as (wd & Hd & Htr & Hw);
      destruct (FeatherS2.cleanup cls mm) as [m' o']
  end.
  simpl in *. exists m', o', wd.
  repeat split; try done.
  rewrite Htr, calls_of_app.
  rewrite (looping_calls cls fuel m_deinit ltac:(done) ltac:(done) _ _ _ Hloop).
  destruct (before_loop_ok cls w m0 Hentry) as [-> _]. reflexivity.
Qed.

(** C5, as the code has it.  In a run that has reached [DEINITIALISING]
    without a fault, a fault of [deinit] is caught by the handler of
    [run()]: the exit code becomes the ordinal of [DEINITIALISING] and
    [deinit] is invoked a second time; [run()] returns if that second
    invocation returns, and only a fault of the second invocation
    reaches the caller.  A fault of [shutdown] is caught as well: the
    exit code becomes the ordinal of [SHUTTING_DOWN], [deinit] is not
    invoked again and [run()] returns. *)
Theorem teardown_fault_is_handled cls fuel w m0 m1 :
  FeatherS2.before_loop cls (mkMachine _ w []) = (m0, Ok) ->
  FeatherS2.looping cls fuel m0 = Some (m1, Ok) ->
  let w_d := with_run_state DEINITIALISING (world m1) in
  (forall wd e,
      deinit cls w_d = (wd, Raise e) ->
      run_state wd = DEINITIALISING ->
      let m_h :=
        mkMachine _
          (with_exit_code (ordinal DEINITIALISING)
             (FeatherS2.report_exception e wd))
          (trace m1 ++ [Assign DEINITIALISING; Call m_deinit]) in
      FeatherS2.run cls fuel w = Some (FeatherS2.cleanup cls m_h)
      /\ snd (FeatherS2.cleanup cls m_h) = snd (deinit cls (world m_h))
      /\ calls_of m_deinit (trace (fst (FeatherS2.cleanup cls m_h))) = 2%nat)
  /\ (forall wd ws e,
        deinit cls w_d = (wd, Ok) ->
        shutdown cls (with_run_state SHUTTING_DOWN wd) = (ws, Raise e) ->
        run_state ws = SHUTTING_DOWN ->
        FeatherS2.run cls fuel w
        = Some (mkMachine _
                  (with_exit_code (ordinal SHUTTING_DOWN)
                     (FeatherS2.report_exception e ws))
                  (trace m1 ++ [Assign DEINITIALISING; Call m_deinit;
                                Assign SHUTTING_DOWN; Call m_shutdown]),
                Ok)).
Proof.
  intros Hentry Hloop w_d. split.
  - intros wd e Hdeinit Hstate m_h.
    assert (Hrun : FeatherS2.run cls fuel w = Some (FeatherS2.cleanup cls m_h)).
    { unfold FeatherS2.run, FeatherS2.try_body, FeatherS2.through_loop.
      rewrite Hentry, Hloop.
      unfold FeatherS2.after_loop, pthen, assign, call. simpl.
      fold w_d. rewrite Hdeinit.
      rewrite handler_before_shutdown by (simpl; rewrite Hstate; simpl; lia).
      simpl. rewrite Hstate, <- app_assoc. reflexivity. }
    split; [exact Hrun|].
    destruct (cleanup_spec cls m_h) as (wd2 & Hd2 & Htr2 & _).
    split; [by rewrite Hd2|].
    rewrite Htr2. unfold m_h. simpl trace. rewrite !calls_of_app.
    rewrite (looping_calls cls fuel m_deinit ltac:(done) ltac:(done) _ _ _ Hloop).
    destruct (before_loop_ok cls w m0 Hentry) as [-> _]. reflexivity.
  - intros wd ws e Hdeinit Hshut Hstate.
    unfold FeatherS2.run, FeatherS2.try_body, FeatherS2.through_loop.
    rewrite Hentry, Hloop.
    unfold FeatherS2.after_loop, pthen, assign, call. simpl.
    fold w_d. rewrite Hdeinit. simpl. rewrite Hshut.
    unfold FeatherS2.handler, pthen, silently. simpl.
    rewrite run_state_report_exception, Hstate. simpl.
    rewrite <- !app_assoc. reflexivity.
Qed.
End Faults.

(** ** The finished flag *)

Section Finish.
Context `{Callables}.
Implicit Types (w : World) (m : Machine) (cls : AppClass).

Lemma handler_calls cls e m meth :
  meth <> m_deinit ->
  calls_of meth (trace (fst (FeatherS2.handler cls e m)))
  = calls_of meth (trace m).
Proof.
  intros Hne. destruct (handler_trace cls e m) as (rest & -> & [-> | ->]).
  - by rewrite app_nil_r.
  - rewrite calls_of_app, calls_of_other by done. lia.
Qed.

Lemma calls_of_assign meth s : calls_of meth [Assign s] = 0%nat.
Proof. unfold calls_of. by rewrite filter_cons_False. Qed.

Lemma after_loop_calls cls m meth :
  meth <> m_deinit -> meth <> m_shutdown ->
  calls_of meth (trace (fst (FeatherS2.after_loop cls m)))
  = calls_of meth (trace m).
Proof.
  intros Hd Hs. unfold FeatherS2.after_loop, pthen, assign, call. simpl.
  destruct (deinit cls _) as [wd [|e]]; simpl.
  - destruct (shutdown cls _) as [ws o]; simpl.
    rewrite !calls_of_app, !calls_of_other, !calls_of_assign by done. lia.
  - rewrite !calls_of_app, !calls_of_other, !calls_of_assign by done. lia.
Qed.

(** How often [run()] invokes a method other than [deinit] and
    [shutdown] is settled when the loop is left. *)
Lemma run_calls_settled_by_loop cls fuel w meth :
  meth <> m_deinit -> meth <> m_shutdown ->
  match FeatherS2.run cls fuel w with
  | Some (m', _) =>
      exists m1 o1,
        FeatherS2.through_loop cls fuel (mkMachine _ w []) = Some (m1, o1)
        /\ calls_of meth (trace m') = calls_of meth (trace m1)
  | None => FeatherS2.through_loop cls fuel (mkMachine _ w []) = None
  end.
Proof.
  intros Hd Hs. unfold FeatherS2.run, FeatherS2.try_body.
  destruct (FeatherS2.through_loop cls fuel _) as [[m1 [|e]]|]; [| |done].
  - destruct (FeatherS2.after_loop cls m1) as [m2 [|e]] eqn:Hafter.
    + exists m1, Ok. split; [done|].
      by rewrite <- (after_loop_calls cls m1 meth Hd Hs), Hafter.
    + destruct (FeatherS2.handler cls e m2) as [m3 o3] eqn:Hh.
      exists m1, Ok. split; [done|].
      rewrite <- (after_loop_calls cls m1 meth Hd Hs), Hafter. simpl.
      by rewrite <- (handler_calls cls e m2 meth Hd), Hh.
  - destruct (FeatherS2.handler cls e m1) as [m3 o3] eqn:Hh.
    exists m1, (Raise e). split; [done|].
    by rewrite <- (handler_calls cls e m1 meth Hd), Hh.
Qed.

(** The [try] body up to the end of the loop does not consult
    [deinit]. *)
Lemma through_loop_with_deinit cls d fuel m :
  FeatherS2.through_loop (with_deinit d cls) fuel m
  = FeatherS2.through_loop cls fuel m.
Proof.
  unfold FeatherS2.through_loop.
  change (FeatherS2.before_loop (with_deinit d cls) m)
    with (FeatherS2.before_loop cls m).
  destruct (FeatherS2.before_loop cls m) as [m0 [|e]]; [|done].
  revert m0. induction fuel as [|fuel IH]; intros m0; [done|].
  simpl. destruct (finished (world m0)); [done|].
  change (FeatherS2.iteration (with_deinit d cls) m0)
    with (FeatherS2.iteration cls m0).
  destruct (FeatherS2.iteration cls m0) as [m1 [|e]]; [apply IH | done].
Qed.

(** [N] complete iterations that leave the flag set, and what [run()]
    does with them. *)
Lemma run_after_iterations cls fuel w m0 mN (N : nat) :
  FeatherS2.before_loop cls (mkMachine _ w []) = (m0, Ok) ->
  iterate cls N m0 = Some mN ->
  finished (world mN) = true ->
  (N <= fuel)%nat ->
  exists m' o' rest,
    FeatherS2.run cls fuel w = Some (m', o')
    /\ trace m' = entry_events ++ loop_events N
                  ++ Assign DEINITIALISING :: Call m_deinit :: rest
    /\ calls_of m_update_timers (trace m') = N
    /\ calls_of m_loop (trace m') = N.
Proof.
  intros Hentry Hiter Hfin Hfuel.
  pose proof (iterate_looping cls N m0 mN fuel Hiter Hfin Hfuel) as Hloop.
  destruct (run_after_loop cls fuel w m0 mN Hentry Hloop)
    as (m' & o' & rest & Hrun & Htr & Hu & Hl).
  destruct (before_loop_ok cls w m0 Hentry) as [Htr0 _].
  rewrite (iterate_trace cls N m0 mN Hiter), Htr0, <- app_assoc in Htr.
  destruct (calls_of_loop_events N) as [HNu HNl].
  exists m', o', rest. split; [exact Hrun|]. split; [exact Htr|].
  rewrite Htr.
  change (Assign DEINITIALISING :: Call m_deinit :: rest)
    with ([Assign DEINITIALISING; Call m_deinit] ++ rest).
  rewrite !calls_of_app, HNu, HNl, Hu, Hl. done.
Qed.

(** C9.  When [run()] has entered the loop and [N] iterations complete
    without a fault, the flag being unset at the start of each of them
    and set at the end of the last (as it is when the loop hook of
    iteration [N] calls [finish()] and returns), then for any fuel of at
    least [N] the run goes on: it has recorded [N] timer passes and [N]
    loop-hook calls, each pass followed by its hook call, then assigns
    [DEINITIALISING] and invokes [deinit], and no further pass or hook
    call follows. *)
Theorem finish_in_loop_completes_iteration cls fuel w m0 mN (N : nat) :
  FeatherS2.before_loop cls (mkMachine _ w []) = (m0, Ok) ->
  iterate cls N m0 = Some mN ->
  finished (world mN) = true ->
  (N <= fuel)%nat ->
  exists m' o' rest,
    FeatherS2.run cls fuel w = Some (m', o')
    /\ trace m' = entry_events ++ loop_events N
                  ++ Assign DEINITIALISING :: Call m_deinit :: rest
    /\ calls_of m_update_timers (trace m') = N
    /\ calls_of m_loop (trace m') = N.
Proof. apply run_after_iterations. Qed.

(** C6, as the code has it.  [finish()] sets the flag whatever the
    state.  When [init] has left the flag set, the loop is entered and
    left at once: [run()] makes no timer pass and no loop-hook call, with
    any fuel, and goes on to [DEINITIALISING].  What [deinit] does has no
    bearing on the loop: replacing it by any other hook changes neither
    whether the loop ends nor the number of timer passes and loop-hook
    calls. *)
Theorem finish_in_init_skips_loop cls fuel w :
  (forall m0,
      FeatherS2.before_loop cls (mkMachine _ w []) = (m0, Ok) ->
      finished (world m0) = true ->
      exists m' o' rest,
        FeatherS2.run cls fuel w = Some (m', o')
        /\ trace m' = entry_events
                      ++ Assign DEINITIALISING :: Call m_deinit :: rest
        /\ calls_of m_update_timers (trace m') = 0%nat
        /\ calls_of m_loop (trace m') = 0%nat)
  /\ (forall d,
        match FeatherS2.run cls fuel w,
              FeatherS2.run (with_deinit d cls) fuel w with
        | Some (m, _), Some (m', _) =>
            calls_of m_update_timers (trace m)
            = calls_of m_update_timers (trace m')
            /\ calls_of m_loop (trace m) = calls_of m_loop (trace m')
        | None, None => True
        | _, _ => False
        end).
Proof.
  split.
  - intros m0 Hentry Hfin.
    exact (run_after_iterations cls fuel w m0 m0 0
             Hentry eq_refl Hfin (Nat.le_0_l fuel)).
  - intros d.
    pose proof (run_calls_settled_by_loop cls fuel w m_update_timers
                  ltac:(done) ltac:(done)) as Hu.
    pose proof (run_calls_settled_by_loop cls fuel w m_loop
                  ltac:(done) ltac:(done)) as Hl.
    pose proof (run_calls_settled_by_loop (with_deinit d cls) fuel w
                  m_update_timers ltac:(done) ltac:(done)) as Hu'.
    pose proof (run_calls_settled_by_loop (with_deinit d cls) fuel w m_loop
                  ltac:(done) ltac:(done)) as Hl'.
    rewrite through_loop_with_deinit in Hu', Hl'.
    destruct (FeatherS2.run cls fuel w) as [[m o]|];
      destruct (FeatherS2.run (with_deinit d cls) fuel w) as [[m' o']|].
    + destruct Hu as (m1 & o1 & Ht & ->), Hl as (m2 & o2 & Ht2 & ->).
      destruct Hu' as (m3 & o3 & Ht3 & ->), Hl' as (m4 & o4 & Ht4 & ->).
      split; congruence.
    + destruct Hu as (m1 & o1 & Ht & _). congruence.
    + destruct Hu' as (m1 & o1 & Ht & _). congruence.
    + done.
Qed.
End Finish.

(** ** The properties on the bench application *)


(** * Further properties of the code *)

(** ** Dictionaries, continued *)

Section DictMore.
Context {V : Type}.
Implicit Types (d : dict V) (k : string) (v : V).

Lemma dict_get_None_keys k d : dict_get k d = None <-> k ∉ dict_keys d.
Proof.
  induction d as [|[k' v'] r IH]; simpl.
  - split; [intros _; apply not_elem_of_nil | done].
  - destruct (decide (k = k')) as [->|Hne].
    + split; [done | intros Hn; exfalso; apply Hn; left].
    + rewrite IH. rewrite not_elem_of_cons. tauto.
Qed.

Lemma dict_keys_set_in k v d :
  k ∈ dict_keys d -> dict_keys (dict_set k v d) = dict_keys d.
Proof.
  induction d as [|[k' v'] r IH]; simpl; intros Hin.
  - by apply elem_of_nil in Hin.
  - destruct (decide (k = k')) as [->|Hne]; simpl; [done|].
    apply elem_of_cons in Hin as [?|Hin]; [done|]. by rewrite IH.
Qed.

Lemma dict_set_fresh k v d :
  dict_get k d = None -> dict_set k v d = d ++ [(k, v)].
Proof.
  induction d as [|[k' v'] r IH]; simpl; [done|].
  destruct (decide (k = k')); [done|]. intros Hget. by rewrite IH.
Qed.

Lemma dict_del_absent k d : dict_get k d = None -> dict_del k d = d.
Proof.
  induction d as [|[k' v'] r IH]; simpl; [done|].
  destruct (decide (k = k')); [done|]. intros Hget. by rewrite IH.
Qed.

Lemma dict_get_del_ne k k' d :
  k <> k' -> dict_get k' (dict_del k d) = dict_get k' d.
Proof.
  intros Hne. induction d as [|[k0 v0] r IH]; simpl; [done|].
  destruct (decide (k = k0)) as [->|Hk]; simpl.
  - by rewrite decide_False by congruence.
  - destruct (decide (k' = k0)); [done | apply IH].
Qed.

Lemma dict_keys_del_subseteq k d : dict_keys (dict_del k d) ⊆ dict_keys d.
Proof.
  induction d as [|[k' v'] r IH]; simpl; [done|].
  destruct (decide (k = k')); simpl.
  - intros x Hx. by right.
  - intros x Hx. apply elem_of_cons in Hx as [->|Hx]; [left | right; by apply IH].
Qed.

Lemma dict_get_del_eq k d :
  NoDup (dict_keys d) -> dict_get k (dict_del k d) = None.
Proof.
  induction d as [|[k' v'] r IH]; simpl; [done|].
  intros Hnd. apply NoDup_cons in Hnd as [Hnotin Hnd].
  destruct (decide (k = k')) as [->|Hne]; simpl.
  - by apply dict_get_None_keys.
  - rewrite decide_False by done. by apply IH.
Qed.

Lemma dict_keys_NoDup_set k v d :
  NoDup (dict_keys d) -> NoDup (dict_keys (dict_set k v d)).
Proof.
  intros Hnd. destruct (dict_get k d) as [v0|] eqn:Hget.
  - rewrite dict_keys_set_in; [done|].
    destruct (decide (k ∈ dict_keys d)) as [|Hn]; [done|].
    apply dict_get_None_keys in Hn. congruence.
  - rewrite dict_set_fresh by done. unfold dict_keys. rewrite map_app. simpl.
    apply NoDup_app. split; [done|]. split; [|apply NoDup_singleton].
    intros x Hx Hx'. apply list_elem_of_singleton in Hx' as ->.
    by apply dict_get_None_keys in Hget.
Qed.

Lemma dict_keys_NoDup_del k d :
  NoDup (dict_keys d) -> NoDup (dict_keys (dict_del k d)).
Proof.
  induction d as [|[k' v'] r IH]; simpl; [done|].
  intros Hnd. apply NoDup_cons in Hnd as [Hnotin Hnd].
  destruct (decide (k = k')); simpl; [done|].
  apply NoDup_cons. split; [|by apply IH].
  intros Hin. apply Hnotin. by apply (dict_keys_del_subseteq k r).
Qed.

Lemma dict_del_set_fresh k v d :
  dict_get k d = None -> dict_del k (dict_set k v d) = d.
Proof.
  induction d as [|[k' v'] r IH]; simpl.
  - intros _. by rewrite decide_True.
  - destruct (decide (k = k')); [done|]. intros Hget. simpl.
    rewrite decide_False by done. by rewrite IH.
Qed.
End DictMore.

(** ** The timer dictionary *)

Section Registry.
Context `{Callables}.
Implicit Types (w : World) (t : Timer) (n : string) (id : ObjId).

Lemma get_timer_dict_get n w :
  FeatherS2.get_timer n w = dict_get n (timers w).
Proof.
  unfold FeatherS2.get_timer, FeatherS2.has_timer, dict_mem.
  by destruct (dict_get n (timers w)).
Qed.

Lemma has_timer_dict_get n w :
  FeatherS2.has_timer n w = true <-> is_Some (dict_get n (timers w)).
Proof.
  unfold FeatherS2.has_timer, dict_mem.
  destruct (dict_get n (timers w)); split; done || by intros [? ?].
Qed.

(** [add_timer] with a fresh explicit name, step by step. *)
Lemma add_timer_fresh_eq w n p cb r :
  n <> "" ->
  dict_get n (timers w) = None ->
  FeatherS2.add_timer p cb (Some n) r w
  = (with_timers (timers w ++ [(n, length (heap w))])
       (with_heap (heap w ++ [mkTimer n p cb r 0 false false 0 0]) w),
     Some (length (heap w))).
Proof.
  intros Hne Hfresh. unfold FeatherS2.add_timer, Timer.new, dict_mem.
  rewrite Hfresh, (truthy_nonempty n Hne). simpl.
  rewrite list_lookup_middle by reflexivity. simpl.
  by rewrite (dict_set_fresh _ _ _ Hfresh).
Qed.

(** X1.  Registration under a fresh explicit name and look-up agree.
    [add_timer] returns the new timer; [get_timer] and [has_timer] find it
    under its name; the timer is stopped with zero counters and carries
    the period and callback given; every other name leads where it led
    before, no object already in the store changes, the name counter is
    not used, and the new timer is the last one [update_timers()] will
    visit. *)
Theorem add_timer_then_get_timer w n p cb r :
  n <> "" ->
  dict_get n (timers w) = None ->
  let id := length (heap w) in
  exists w',
    FeatherS2.add_timer p cb (Some n) r w = (w', Some id)
    /\ FeatherS2.get_timer n w' = Some id
    /\ FeatherS2.has_timer n w' = true
    /\ heap w' !! id = Some (mkTimer n p cb r 0 false false 0 0)
    /\ (forall n', n' <> n -> FeatherS2.get_timer n' w' = FeatherS2.get_timer n' w)
    /\ (forall old, (old < length (heap w))%nat -> heap w' !! old = heap w !! old)
    /\ name_counter w' = name_counter w
    /\ dict_values (timers w') = dict_values (timers w) ++ [id].
Proof.
  intros Hne Hfresh id. eexists. split; [by apply add_timer_fresh_eq|].
  assert (Hget : dict_get n (timers w ++ [(n, id)]) = Some id).
  { rewrite <- (dict_set_fresh _ _ _ Hfresh). apply dict_get_set_eq. }
  split; [by rewrite get_timer_dict_get|].
  split; [apply has_timer_dict_get; exists id; exact Hget|].
  split; [simpl; by rewrite list_lookup_middle|].
  split.
  { intros n' Hn'. rewrite !get_timer_dict_get. simpl.
    rewrite <- (dict_set_fresh _ _ _ Hfresh). by apply dict_get_set_ne. }
  split; [intros old Hold; simpl; by rewrite lookup_app_l|].
  split; [reflexivity|].
  simpl. unfold dict_values. by rewrite map_app.
Qed.

(** X2.  [remove_timer] never raises: for a name that is not registered it
    leaves the world as it is.  For a dictionary without repeated names,
    the name is not registered afterwards, every other name leads where
    it led before, and the timer objects, the removed one included, stay
    in the store unchanged. *)
Theorem remove_timer_forgets_only_that_name w n :
  NoDup (dict_keys (timers w)) ->
  FeatherS2.has_timer n (FeatherS2.remove_timer n w) = false
  /\ FeatherS2.get_timer n (FeatherS2.remove_timer n w) = None
  /\ (forall n', n' <> n ->
        FeatherS2.get_timer n' (FeatherS2.remove_timer n w)
        = FeatherS2.get_timer n' w)
  /\ heap (FeatherS2.remove_timer n w) = heap w
  /\ (FeatherS2.has_timer n w = false -> FeatherS2.remove_timer n w = w).
Proof.
  intros Hnd.
  assert (Hgone : dict_get n (timers (FeatherS2.remove_timer n w)) = None).
  { unfold FeatherS2.remove_timer, dict_mem.
    destruct (dict_get n (timers w)) eqn:Hget; simpl; [|done].
    by apply dict_get_del_eq. }
  split; [unfold FeatherS2.has_timer, dict_mem; by rewrite Hgone|].
  split; [by rewrite get_timer_dict_get|].
  split.
  { intros n' Hn'. rewrite !get_timer_dict_get.
    unfold FeatherS2.remove_timer. destruct (dict_mem n (timers w)); [|done].
    simpl. by apply dict_get_del_ne. }
  split.
  { unfold FeatherS2.remove_timer. by destruct (dict_mem n (timers w)). }
  unfold FeatherS2.remove_timer, FeatherS2.has_timer. by intros ->.
Qed.

Lemma remove_timer_keys_NoDup n w :
  NoDup (dict_keys (timers w)) ->
  NoDup (dict_keys (timers (FeatherS2.remove_timer n w))).
Proof.
  intros Hnd. unfold FeatherS2.remove_timer.
  destruct (dict_mem n (timers w)); [|done]. simpl.
  by apply dict_keys_NoDup_del.
Qed.

Lemma remove_timer_get n n' w :
  NoDup (dict_keys (timers w)) ->
  dict_get n' (timers (FeatherS2.remove_timer n w))
  = if decide (n = n') then None else dict_get n' (timers w).
Proof.
  intros Hnd. unfold FeatherS2.remove_timer, dict_mem.
  destruct (decide (n = n')) as [->|Hne].
  - destruct (dict_get n' (timers w)) eqn:Hget; simpl; [|done].
    by apply dict_get_del_eq.
  - destruct (dict_get n (timers w)); [|done]. simpl.
    by apply dict_get_del_ne.
Qed.

(** X3.  [remove_timers] forgets the names of its list and no other: for a
    dictionary without repeated names, none of the listed names is
    registered afterwards, whether it was registered before or not and
    however often it is listed; every other name leads where it led
    before; no timer object is touched.  After [remove_all_timers] no
    name is registered. *)
Theorem remove_timers_forgets_the_listed_names w names :
  NoDup (dict_keys (timers w)) ->
  (forall n, n ∈ names ->
             FeatherS2.get_timer n (FeatherS2.remove_timers names w) = None)
  /\ (forall n, n ∉ names ->
                FeatherS2.get_timer n (FeatherS2.remove_timers names w)
                = FeatherS2.get_timer n w)
  /\ heap (FeatherS2.remove_timers names w) = heap w
  /\ (forall n, FeatherS2.get_timer n (FeatherS2.remove_all_timers w) = None).
Proof.
  intros Hnd.
  assert (Hgen : forall n,
             dict_get n (timers (FeatherS2.remove_timers names w))
             = if decide (n ∈ names) then None else dict_get n (timers w)).
  { unfold FeatherS2.remove_timers. revert w Hnd.
    induction names as [|n0 r IH]; intros w Hnd n.
    - simpl. destruct (decide (n ∈ [])) as [Hin|_]; [|done].
      by apply elem_of_nil in Hin.
    - simpl. rewrite (IH _ (remove_timer_keys_NoDup n0 w Hnd)).
      rewrite (remove_timer_get n0 n w Hnd).
      destruct (decide (n ∈ r)) as [Hin|Hnin];
        destruct (decide (n ∈ n0 :: r)) as [Hin'|Hnin'];
        destruct (decide (n0 = n)) as [Heq|Hne];
        try done;
        try (exfalso; apply Hnin', elem_of_cons; by auto);
        try (exfalso; apply elem_of_cons in Hin' as [?|?]; by auto). }
  split.
  { intros n Hin. rewrite get_timer_dict_get, Hgen. by rewrite decide_True. }
  split.
  { intros n Hnin. rewrite !get_timer_dict_get, Hgen. by rewrite decide_False. }
  split.
  { unfold FeatherS2.remove_timers. clear. revert w.
    induction names as [|n0 r IH]; intros w; [done|]. simpl. rewrite IH.
    unfold FeatherS2.remove_timer. by destruct (dict_mem n0 (timers w)). }
  intros n. by rewrite get_timer_dict_get.
Qed.

(** X4.  Registering a timer under a fresh explicit name and removing it
    again gives back the dictionary and the name counter; the timer
    object itself stays in the store. *)
Theorem add_timer_then_remove_timer w n p cb r :
  n <> "" ->
  dict_get n (timers w) = None ->
  let w' := FeatherS2.remove_timer n (fst (FeatherS2.add_timer p cb (Some n) r w)) in
  timers w' = timers w
  /\ name_counter w' = name_counter w
  /\ heap w' = heap w ++ [mkTimer n p cb r 0 false false 0 0].
Proof.
  intros Hne Hfresh. rewrite (add_timer_fresh_eq w n p cb r Hne Hfresh).
  cbn [fst]. unfold FeatherS2.remove_timer.
  assert (Hset : timers w ++ [(n, length (heap w))]
                 = dict_set n (length (heap w)) (timers w))
    by (symmetry; by apply dict_set_fresh).
  cbn [timers with_timers]. rewrite Hset.
  match goal with
  | |- context [@dict_mem ?V n ?d] =>
      replace (@dict_mem V n d) with true
        by (symmetry; eapply dict_mem_get, dict_get_set_eq)
  end.
  cbn. split; [by apply dict_del_set_fresh | done].
Qed.

(** [add_timer] without a usable name, step by step. *)
Lemma add_timer_unnamed_registers_eq w nm p cb r :
  truthy nm = false ->
  exists w',
    FeatherS2.add_timer p cb nm r w = (w', Some (length (heap w)))
    /\ timers w'
       = dict_set (Timer.auto_name (name_counter w)) (length (heap w)) (timers w)
    /\ heap w'
       = heap w ++ [mkTimer (Timer.auto_name (name_counter w)) p cb r
                            0 false false 0 0]
    /\ name_counter w' = (name_counter w + 1)%N.
Proof.
  intros Hfalsy. unfold FeatherS2.add_timer, Timer.new. rewrite Hfalsy. simpl.
  rewrite list_lookup_middle by reflexivity. simpl.
  eexists. split; [reflexivity|]. simpl. done.
Qed.

(** Names made from different counter values differ. *)
Lemma auto_name_inj (a b : N) : Timer.auto_name a = Timer.auto_name b -> a = b.
Proof.
  unfold Timer.auto_name. intros Heq.
  apply (inj (String.append "Timer-")) in Heq. by apply (inj pretty).
Qed.

Lemma auto_name_truthy (k : N) : Timer.auto_name k <> "".
Proof. unfold Timer.auto_name. simpl. discriminate. Qed.

(** X5.  Two registrations without a name, one after the other, take the
    names of two successive counter values; the names differ, and after
    the second registration both timers are registered, each under its
    own name. *)
Theorem unnamed_timers_get_distinct_names w nm1 nm2 p1 cb1 r1 p2 cb2 r2 :
  truthy nm1 = false ->
  truthy nm2 = false ->
  let k := name_counter w in
  let id1 := length (heap w) in
  let id2 := S (length (heap w)) in
  exists w1 w2,
    FeatherS2.add_timer p1 cb1 nm1 r1 w = (w1, Some id1)
    /\ FeatherS2.add_timer p2 cb2 nm2 r2 w1 = (w2, Some id2)
    /\ Timer.auto_name k <> Timer.auto_name (k + 1)
    /\ FeatherS2.get_timer (Timer.auto_name k) w2 = Some id1
    /\ FeatherS2.get_timer (Timer.auto_name (k + 1)) w2 = Some id2
    /\ name_counter w2 = (k + 2)%N.
Proof.
  intros Hf1 Hf2 k id1 id2.
  destruct (add_timer_unnamed_registers_eq w nm1 p1 cb1 r1 Hf1)
    as (w1 & Hadd1 & Ht1 & Hh1 & Hc1).
  destruct (add_timer_unnamed_registers_eq w1 nm2 p2 cb2 r2 Hf2)
    as (w2 & Hadd2 & Ht2 & Hh2 & Hc2).
  assert (Hne : Timer.auto_name k <> Timer.auto_name (k + 1)).
  { intros Heq. apply auto_name_inj in Heq. lia. }
  assert (Hlen : length (heap w1) = id2).
  { rewrite Hh1, length_app. simpl. unfold id2. lia. }
  rewrite Hlen in Hadd2, Ht2. rewrite Hc1 in Ht2.
  exists w1, w2.
  split; [exact Hadd1|]. split; [exact Hadd2|]. split; [exact Hne|].
  rewrite !get_timer_dict_get, Ht2, Ht1.
  split.
  - rewrite dict_get_set_ne by (intros Heq; by apply Hne).
    apply dict_get_set_eq.
  - split; [apply dict_get_set_eq|]. rewrite Hc2, Hc1. unfold k. lia.
Qed.
End Registry.

(** ** The dictionary and the store together *)

Section RegistryInvariant.
Context `{Callables}.
Implicit Types (w : World) (t : Timer) (n : string) (id : ObjId).

Lemma lookup_on_obj_decide self other f w :
  heap (on_obj self f w) !! other
  = if decide (self = other) then f <$> heap w !! other else heap w !! other.
Proof.
  destruct (decide (self = other)) as [->|Hne].
  - apply lookup_on_obj.
  - by apply lookup_on_obj_ne.
Qed.

(** What each of the four state-changing methods of a timer does to the
    store. *)
Lemma lookup_start self other w :
  heap (Timer.start self w) !! other
  = if decide (self = other) then started (clock w) <$> heap w !! other
    else heap w !! other.
Proof.
  unfold Timer.start, Timer.reset. rewrite !lookup_on_obj_decide.
  destruct (decide (self = other)); [|done].
  by destruct (heap w !! other).
Qed.

Lemma lookup_stop self other w :
  heap (Timer.stop self w) !! other
  = if decide (self = other) then stopped (clock w) <$> heap w !! other
    else heap w !! other.
Proof.
  unfold Timer.stop, Timer.reset. rewrite !lookup_on_obj_decide.
  destruct (decide (self = other)); [|done].
  by destruct (heap w !! other).
Qed.

Lemma lookup_pause self other w :
  heap (Timer.pause self w) !! other
  = if decide (self = other) then with_paused true <$> heap w !! other
    else heap w !! other.
Proof. apply lookup_on_obj_decide. Qed.

Lemma lookup_resume self other w :
  heap (Timer.resume self w) !! other
  = if decide (self = other) then resumed (clock w) <$> heap w !! other
    else heap w !! other.
Proof. apply lookup_on_obj_decide. Qed.

(** An operation applied to a list of references, when it acts on one
    object by a function of the clock reading that can be repeated
    without further effect. *)
Lemma lookup_foldl_op (op : ObjId -> World -> World) (g : Z -> Timer -> Timer) :
  (forall i w j,
      heap (op i w) !! j
      = if decide (i = j) then g (clock w) <$> heap w !! j else heap w !! j) ->
  (forall i w, clock (op i w) = clock w) ->
  (forall i w, timers (op i w) = timers w) ->
  (forall c t, g c (g c t) = g c t) ->
  forall ids w j,
    heap (foldl (fun w' i => op i w') w ids) !! j
    = (if decide (j ∈ ids) then g (clock w) <$> heap w !! j else heap w !! j)
    /\ clock (foldl (fun w' i => op i w') w ids) = clock w
    /\ timers (foldl (fun w' i => op i w') w ids) = timers w.
Proof.
  intros Hop Hclock Htimers Hidem ids.
  induction ids as [|i r IH]; intros w j; simpl.
  - destruct (decide (j ∈ [])) as [Hin|_]; [|done].
    by apply elem_of_nil in Hin.
  - destruct (IH (op i w) j) as (Hlook & Hc & Ht).
    rewrite Hlook, Hc, Ht, Hclock, Htimers, Hop.
    split; [|done].
    destruct (decide (j ∈ r)) as [Hin|Hnin];
      destruct (decide (j ∈ i :: r)) as [Hin'|Hnin'];
      destruct (decide (i = j)) as [->|Hne];
      try done;
      try (exfalso; apply Hnin', elem_of_cons; by auto);
      try (exfalso; apply elem_of_cons in Hin' as [?|?]; by auto).
    assert (Hx : forall x : option Timer,
               g (clock w) <$> (g (clock w) <$> x) = g (clock w) <$> x).
    { intros [t|]; [|reflexivity].
      change (Some (g (clock w) (g (clock w) t)) = Some (g (clock w) t)).
      by rewrite Hidem. }
    apply Hx.
Qed.

(** X6.  The four [..._all_timers] methods reach exactly the timers the
    dictionary refers to.  Each such timer is left as [start()], [stop()],
    [pause()] or [resume()] leaves it at the clock reading of the call;
    every other object of the store, the dictionary and the clock are as
    before. *)
Theorem all_timers_methods_reach_the_registered w id :
  let reg := dict_values (timers w) in
  heap (FeatherS2.start_all_timers w) !! id
  = (if decide (id ∈ reg) then started (clock w) <$> heap w !! id
     else heap w !! id)
  /\ heap (FeatherS2.stop_all_timers w) !! id
     = (if decide (id ∈ reg) then stopped (clock w) <$> heap w !! id
        else heap w !! id)
  /\ heap (FeatherS2.pause_all_timers w) !! id
     = (if decide (id ∈ reg) then with_paused true <$> heap w !! id
        else heap w !! id)
  /\ heap (FeatherS2.resume_all_timers w) !! id
     = (if decide (id ∈ reg) then resumed (clock w) <$> heap w !! id
        else heap w !! id)
  /\ timers (FeatherS2.start_all_timers w) = timers w
  /\ timers (FeatherS2.stop_all_timers w) = timers w
  /\ timers (FeatherS2.pause_all_timers w) = timers w
  /\ timers (FeatherS2.resume_all_timers w) = timers w.
Proof.
  intros reg.
  unfold FeatherS2.start_all_timers, FeatherS2.stop_all_timers,
    FeatherS2.pause_all_timers, FeatherS2.resume_all_timers,
    FeatherS2.on_all_timers. fold reg.
  destruct (lookup_foldl_op Timer.start started
              (fun i w' j => lookup_start i j w')
              ltac:(done) ltac:(done) ltac:(by intros c []) reg w id)
    as (H1 & _ & T1).
  destruct (lookup_foldl_op Timer.stop stopped
              (fun i w' j => lookup_stop i j w')
              ltac:(done) ltac:(done) ltac:(by intros c []) reg w id)
    as (H2 & _ & T2).
  destruct (lookup_foldl_op Timer.pause (fun _ => with_paused true)
              (fun i w' j => lookup_pause i j w')
              ltac:(done) ltac:(done) ltac:(by intros c []) reg w id)
    as (H3 & _ & T3).
  destruct (lookup_foldl_op Timer.resume resumed
              (fun i w' j => lookup_resume i j w')
              ltac:(done) ltac:(done) ltac:(by intros c []) reg w id)
    as (H4 & _ & T4).
  done.
Qed.

(** [registry_ok] needs the dictionary and the store only. *)
Lemma registry_ok_on_obj self f w :
  (forall t, name (f t) = name t) ->
  registry_ok w -> registry_ok (on_obj self f w).
Proof.
  intros Hname [Hnd Hobj]. split; [exact Hnd|].
  intros n id Hget. destruct (Hobj n id Hget) as (t & Ht & Hn).
  rewrite lookup_on_obj_decide, Ht.
  destruct (decide (self = id)); simpl; eauto.
  eexists. split; [reflexivity|]. by rewrite Hname.
Qed.

Lemma registry_ok_register w w' key t :
  registry_ok w ->
  name t = key ->
  timers w' = dict_set key (length (heap w)) (timers w) ->
  heap w' = heap w ++ [t] ->
  registry_ok w'.
Proof.
  intros [Hnd Hobj] Hname Ht Hh. split.
  - rewrite Ht. by apply dict_keys_NoDup_set.
  - intros n id. rewrite Ht, Hh.
    destruct (decide (key = n)) as [->|Hne].
    + rewrite dict_get_set_eq. intros [= <-]. exists t.
      split; [by apply list_lookup_middle | done].
    + rewrite dict_get_set_ne by done. intros Hget.
      destruct (Hobj n id Hget) as (t0 & Ht0 & Hn0).
      exists t0. split; [by apply lookup_app_l_Some | done].
Qed.

Lemma registry_ok_add_timer p cb nm r w :
  registry_ok w -> registry_ok (fst (FeatherS2.add_timer p cb nm r w)).
Proof.
  intros Hok. destruct (truthy nm) eqn:Htruthy.
  - destruct nm as [n|]; [|done].
    assert (Hne : n <> "").
    { intros ->. simpl in Htruthy. done. }
    destruct (dict_get n (timers w)) as [old|] eqn:Hget.
    + unfold FeatherS2.add_timer.
      rewrite Htruthy, (dict_mem_get _ _ _ Hget). exact Hok.
    + rewrite (add_timer_fresh_eq w n p cb r Hne Hget). simpl.
      eapply (registry_ok_register w _ n); [exact Hok | | | reflexivity].
      * reflexivity.
      * simpl. symmetry. by apply dict_set_fresh.
  - destruct (add_timer_unnamed_registers_eq w nm p cb r Htruthy)
      as (w' & -> & Ht & Hh & _).
    simpl. eapply registry_ok_register; [exact Hok | | exact Ht | exact Hh].
    reflexivity.
Qed.

Lemma registry_ok_remove_timer n w :
  registry_ok w -> registry_ok (FeatherS2.remove_timer n w).
Proof.
  intros [Hnd Hobj]. unfold FeatherS2.remove_timer.
  destruct (dict_mem n (timers w)); [|done]. split.
  - simpl. by apply dict_keys_NoDup_del.
  - intros n' id. simpl. destruct (decide (n = n')) as [->|Hne].
    + by rewrite dict_get_del_eq.
    + rewrite dict_get_del_ne by done. apply Hobj.
Qed.

Lemma registry_ok_foldl {A} (op : A -> World -> World) (l : list A) w :
  (forall a w', registry_ok w' -> registry_ok (op a w')) ->
  registry_ok w -> registry_ok (foldl (fun w' a => op a w') w l).
Proof.
  intros Hop. revert w. induction l as [|a l IH]; intros w Hok; simpl; [done|].
  apply IH. by apply Hop.
Qed.

Lemma registry_ok_timer_methods self w :
  registry_ok w ->
  registry_ok (Timer.start self w) /\ registry_ok (Timer.stop self w)
  /\ registry_ok (Timer.pause self w) /\ registry_ok (Timer.resume self w).
Proof.
  intros Hok. unfold Timer.start, Timer.stop, Timer.reset, Timer.pause,
    Timer.resume.
  repeat split; repeat (apply registry_ok_on_obj; [by intros [] | ]); done.
Qed.

(** X7.  The dictionary stays in order.  When no name occurs twice and every
    name leads to a timer object carrying that name, the same holds after
    [add_timer] (with or without a name), after [remove_timer],
    [remove_timers] and [remove_all_timers], and after starting, stopping,
    pausing or resuming one timer, all timers or the timers of a list of
    names. *)
Theorem registry_stays_in_order w :
  registry_ok w ->
  (forall p cb nm r, registry_ok (fst (FeatherS2.add_timer p cb nm r w)))
  /\ (forall n, registry_ok (FeatherS2.remove_timer n w))
  /\ (forall names, registry_ok (FeatherS2.remove_timers names w))
  /\ registry_ok (FeatherS2.remove_all_timers w)
  /\ (forall n, registry_ok (FeatherS2.start_timer n w)
                /\ registry_ok (FeatherS2.stop_timer n w)
                /\ registry_ok (FeatherS2.pause_timer n w)
                /\ registry_ok (FeatherS2.resume_timer n w))
  /\ (forall names, registry_ok (FeatherS2.start_timers names w)
                    /\ registry_ok (FeatherS2.stop_timers names w)
                    /\ registry_ok (FeatherS2.pause_timers names w)
                    /\ registry_ok (FeatherS2.resume_timers names w))
  /\ registry_ok (FeatherS2.start_all_timers w)
  /\ registry_ok (FeatherS2.stop_all_timers w)
  /\ registry_ok (FeatherS2.pause_all_timers w)
  /\ registry_ok (FeatherS2.resume_all_timers w).
Proof.
  intros Hok.
  assert (Hby_name : forall n w',
             registry_ok w' ->
             registry_ok (FeatherS2.start_timer n w')
             /\ registry_ok (FeatherS2.stop_timer n w')
             /\ registry_ok (FeatherS2.pause_timer n w')
             /\ registry_ok (FeatherS2.resume_timer n w')).
  { intros n w' Hok'.
    unfold FeatherS2.start_timer, FeatherS2.stop_timer, FeatherS2.pause_timer,
      FeatherS2.resume_timer, FeatherS2.on_timer.
    destruct (FeatherS2.get_timer n w') as [id|]; [|done].
    apply registry_ok_timer_methods, Hok'. }
  split; [intros; by apply registry_ok_add_timer|].
  split; [intros; by apply registry_ok_remove_timer|].
  split.
  { intros names. unfold FeatherS2.remove_timers.
    apply registry_ok_foldl; [|done]. intros; by apply registry_ok_remove_timer. }
  split.
  { split; [apply NoDup_nil_2 | done]. }
  split; [intros n; by apply Hby_name|].
  split.
  { intros names.
    unfold FeatherS2.start_timers, FeatherS2.stop_timers,
      FeatherS2.pause_timers, FeatherS2.resume_timers.
    repeat split; (apply registry_ok_foldl; [|done]); intros a w' Hw';
      by apply Hby_name. }
  unfold FeatherS2.start_all_timers, FeatherS2.stop_all_timers,
    FeatherS2.pause_all_timers, FeatherS2.resume_all_timers,
    FeatherS2.on_all_timers.
  repeat split; (apply registry_ok_foldl; [|done]); intros a w' Hw';
    by apply registry_ok_timer_methods.
Qed.
End RegistryInvariant.

(** ** The timer, continued *)

Section TimerStates.
Context `{Callables}.
Implicit Types (w : World) (t : Timer) (self : ObjId).

Lemma advance_0 w : advance 0 w = w.
Proof. destruct w. unfold advance, with_clock. simpl. f_equal. lia. Qed.

Lemma advance_advance a b w : advance b (advance a w) = advance (a + b) w.
Proof. unfold advance, with_clock. simpl. f_equal. lia. Qed.

Lemma heap_advance dt w : heap (advance dt w) = heap w.
Proof. reflexivity. Qed.

(** Driving a timer that is not running or is paused. *)
Lemma drive_idle self w t dts :
  heap w !! self = Some t ->
  running t && negb (paused t) = false ->
  drive self dts w = (advance (total dts) w, Ok).
Proof.
  intros Hobj Hidle. revert w Hobj.
  induction dts as [|dt r IH]; intros w Hobj.
  - simpl. by rewrite advance_0.
  - simpl drive. unfold andthen.
    assert (Hupd : Timer.update self (advance dt w) = (advance dt w, Ok)).
    { unfold Timer.update. simpl. by rewrite Hobj, Hidle. }
    rewrite Hupd, (IH (advance dt w) Hobj), advance_advance. reflexivity.
Qed.

(** X8.  [update()] does nothing on a timer that is not running or is paused:
    however often it is called and however much time passes in between,
    the world is the one before with the clock moved on; the callback is
    not invoked and no attribute of the timer changes. *)
Theorem idle_timer_ignores_time self w t dts :
  heap w !! self = Some t ->
  running t && negb (paused t) = false ->
  drive self dts w = (advance (total dts) w, Ok).
Proof. apply drive_idle. Qed.

(** X9.  [stop()] sets the trigger count and the accumulator to zero and
    silences the timer: whatever time passes and however often
    [update()] is called afterwards, both stay zero and nothing but the
    clock changes. *)
Theorem stop_zeroes_and_silences self w t dts :
  heap w !! self = Some t ->
  let w1 := Timer.stop self w in
  exists w',
    drive self dts w1 = (w', Ok)
    /\ w' = advance (total dts) w1
    /\ fires self w' = 0
    /\ accumulated self w' = 0
    /\ heap w' !! self = Some (stopped (clock w) t)
    /\ user w' = user w.
Proof.
  intros Hobj w1.
  assert (Hobj1 : heap w1 !! self = Some (stopped (clock w) t)).
  { unfold w1. rewrite lookup_stop, decide_True by done. by rewrite Hobj. }
  exists (advance (total dts) w1).
  split; [by apply (drive_idle self w1 _ dts Hobj1)|].
  split; [done|].
  unfold fires, accumulated.
  change (heap (advance (total dts) w1)) with (heap w1). rewrite Hobj1. done.
Qed.

(** X10.  The time a timer spends paused, and the time between its last
    [update()] and the [pause()], are not counted: if [d0] passes, the
    timer is paused, [d1] passes, it is resumed and [d2] passes, then the
    next [update()] adds only [d2] to the accumulator (when that stays
    below the period); the trigger count is untouched and the timer is
    running and not paused.  The accumulator, [d2] and their sum are
    within the range in which a float accumulator is exact. *)
Theorem pause_resume_counts_only_time_after_resume self w t d0 d1 d2 :
  heap w !! self = Some t ->
  running t = true ->
  duration t + d2 < period t * 1000000 ->
  float_exact (duration t) ->
  float_exact d2 ->
  float_exact (duration t + d2) ->
  let w1 := advance d2 (Timer.resume self (advance d1
              (Timer.pause self (advance d0 w)))) in
  exists w' t',
    Timer.update self w1 = (w', Ok)
    /\ heap w' !! self = Some t'
    /\ duration t' = duration t + d2
    /\ trigger_count t' = trigger_count t
    /\ before t' = clock w + d0 + d1 + d2
    /\ running t' = true /\ paused t' = false
    /\ clock w' = clock w + d0 + d1 + d2.
Proof.
  intros Hobj Hrun Hbelow _ _ _ w1.
  assert (Hobj1 : heap w1 !! self
                  = Some (resumed (clock w + d0 + d1) (with_paused true t))).
  { unfold w1. rewrite heap_advance, lookup_resume, decide_True by done.
    rewrite heap_advance, lookup_pause, decide_True by done.
    rewrite heap_advance, Hobj. reflexivity. }
  unfold Timer.update. rewrite Hobj1. simpl. rewrite Hrun. simpl.
  unfold monotonic_ns. simpl.
  replace (duration t + (clock w + d0 + d1 + d2 - (clock w + d0 + d1)))
    with (duration t + d2) by lia.
  destruct (Z.leb_spec (period t * 1000000) (duration t + d2)); [lia|].
  eexists _, _. split; [reflexivity|].
  rewrite !lookup_on_obj, Hobj1. simpl.
  repeat split; done.
Qed.

(** X11.  A fault of the callback goes through [update()] as it is, and the
    bookkeeping after the callback is skipped: the trigger count is not
    raised and the baseline is not moved.  When the callback has left the
    timer alone, the accumulator holds the time accumulated so far, which
    is at or beyond the period, so the timer is due again at every later
    clock reading.  The accumulator, what is added to it and the sums
    are within the range in which a float accumulator is exact. *)
Theorem callback_fault_leaves_timer_due self w w2 t e :
  heap w !! self = Some t ->
  running t = true ->
  paused t = false ->
  before t <= clock w ->
  period t * 1000000 <= duration t + (clock w - before t) ->
  float_exact (duration t) ->
  float_exact (clock w - before t) ->
  float_exact (duration t + (clock w - before t)) ->
  (let w1 := on_obj self (with_duration (duration t + (clock w - before t))) w in
   invoke (callback t) self (Timer.triggered_at t w1) w1 = (w2, Raise e)
   /\ heap w2 = heap w1) ->
  Timer.update self w = (w2, Raise e)
  /\ exists t',
       heap w2 !! self = Some t'
       /\ trigger_count t' = trigger_count t
       /\ before t' = before t
       /\ duration t' = duration t + (clock w - before t)
       /\ running t' = true /\ paused t' = false
       /\ forall c, clock w <= c ->
                    float_exact (c - before t') ->
                    float_exact (duration t' + (c - before t')) ->
                    period t' * 1000000 <= duration t' + (c - before t').
Proof.
  intros Hobj Hrun Hpause Hmono Hdue _ _ _ [Hcb Hheap]. split.
  - unfold Timer.update. rewrite Hobj, Hrun, Hpause. simpl.
    unfold monotonic_ns.
    destruct (Z.leb_spec (period t * 1000000)
                (duration t + (clock w - before t))); [|lia].
    simpl in Hcb. by rewrite Hcb.
  - rewrite Hheap, lookup_on_obj, Hobj. simpl. eexists. split; [reflexivity|].
    simpl. repeat split; try done. intros c Hc _ _. lia.
Qed.

Lemma start_ready self w t :
  heap w !! self = Some t ->
  heap (Timer.start self w) !! self = Some (started (clock w) t)
  /\ clock (Timer.start self w) = clock w.
Proof.
  intros Hobj. rewrite lookup_start, decide_True by done. by rewrite Hobj.
Qed.

(** X12.  A started timer does not starve.  With a callback that takes no
    time and steps of at most [D] between [update()] calls, the time
    that has passed is less than one period plus one step for every
    fire, and once more: the timer falls behind its period by at most one
    step per fire.  The period and [D] together are within the range in
    which the float accumulator is exact. *)
Theorem fires_at_least_once_per_period_and_step self w t dts (D : Z) :
  heap w !! self = Some t ->
  0 < period t ->
  0 <= D ->
  instant (callback t) ->
  Forall (fun dt => 0 < dt <= D) dts ->
  float_exact (period t * 1000000 + D) ->
  exists w',
    drive self dts (Timer.start self w) = (w', Ok)
    /\ clock w' - clock w = total dts
    /\ total dts < (fires self w' + 1) * (period t * 1000000 + D).
Proof.
  intros Hobj HP HD Hinst Hdts _.
  destruct (start_ready self w t Hobj) as [Hobj0 Hclock0].
  set (Inv := fun (_ e d c : Z) =>
                0 <= d < period t * 1000000 /\ 0 <= c
                /\ e <= c * (period t * 1000000 + D) + d).
  assert (Hwait : forall s e d c dt,
             Inv s e d c -> 0 < dt <= D -> d + dt < period t * 1000000 ->
             Inv (s + 1) (e + dt) (d + dt) c).
  { unfold Inv. intros s e d c dt (Hd & Hc & He) Hdt Hlt. lia. }
  assert (Hfire : forall s e d c dt,
             Inv s e d c -> 0 < dt <= D -> period t * 1000000 <= d + dt ->
             Inv (s + 1) (e + dt) 0 (c + 1)).
  { unfold Inv. intros s e d c dt (Hd & Hc & He) Hdt Hge. nia. }
  assert (HInv0 : Inv 0 0 0 0) by (unfold Inv; lia).
  destruct (drive_instant_invariant self (period t * 1000000) (callback t)
              (fun dt => 0 < dt <= D) Inv Hinst Hwait Hfire dts Hdts
              (Timer.start self w) (started (clock w) t) 0 0
              Hobj0 eq_refl eq_refl eq_refl eq_refl eq_refl HInv0)
    as (w' & t' & Hdrive & Hobj' & Hclock' & Hd & Hc & He).
  exists w'. split; [exact Hdrive|]. unfold fires. rewrite Hobj'. simpl.
  rewrite Hclock0 in Hclock'. split; [lia|]. nia.
Qed.

Lemma total_replicate (n : nat) (dt : Z) :
  total (replicate n dt) = Z.of_nat n * dt.
Proof.
  unfold total. induction n as [|n IH]; [done|].
  simpl replicate. simpl foldr. rewrite IH. lia.
Qed.

(** X13.  No drift when the steps divide the period.  With a callback that
    takes no time and [update()] calls a fixed step apart, the period
    being a whole number of steps, the number of fires is exactly the
    number of whole periods in the time that has passed.  The period is
    within the range in which the float accumulator is exact. *)
Theorem fires_exactly_when_step_divides_period self w t (n : nat) (dt k : Z) :
  heap w !! self = Some t ->
  0 < dt ->
  0 < k ->
  period t * 1000000 = k * dt ->
  instant (callback t) ->
  float_exact (period t * 1000000) ->
  exists w',
    drive self (replicate n dt) (Timer.start self w) = (w', Ok)
    /\ clock w' - clock w = total (replicate n dt)
    /\ fires self w' = total (replicate n dt) `div` (period t * 1000000)
    /\ accumulated self w' = total (replicate n dt) `mod` (period t * 1000000).
Proof.
  intros Hobj Hdt Hk HP Hinst _.
  destruct (start_ready self w t Hobj) as [Hobj0 Hclock0].
  set (Inv := fun (_ e d c : Z) =>
                c * (period t * 1000000) + d = e
                /\ 0 <= d < period t * 1000000
                /\ exists i, d = i * dt).
  assert (Hwait : forall s e d c x,
             Inv s e d c -> x = dt -> d + x < period t * 1000000 ->
             Inv (s + 1) (e + x) (d + x) c).
  { unfold Inv. intros s e d c x (He & Hd & i & Hi) -> Hlt.
    split; [lia|]. split; [lia|]. exists (i + 1). lia. }
  assert (Hfire : forall s e d c x,
             Inv s e d c -> x = dt -> period t * 1000000 <= d + x ->
             Inv (s + 1) (e + x) 0 (c + 1)).
  { unfold Inv. intros s e d c x (He & Hd & i & Hi) -> Hge.
    assert (i + 1 = k) by nia.
    split; [nia|]. split; [nia|]. exists 0. lia. }
  assert (HInv0 : Inv 0 0 0 0).
  { unfold Inv. split; [lia|]. split; [nia|]. exists 0. lia. }
  destruct (drive_instant_invariant self (period t * 1000000) (callback t)
              (fun x => x = dt) Inv Hinst Hwait Hfire (replicate n dt)
              (Forall_replicate _ _ _ eq_refl)
              (Timer.start self w) (started (clock w) t) 0 0
              Hobj0 eq_refl eq_refl eq_refl eq_refl eq_refl HInv0)
    as (w' & t' & Hdrive & Hobj' & Hclock' & He & Hd & _).
  exists w'. split; [exact Hdrive|]. rewrite Hclock0 in Hclock'.
  split; [lia|]. unfold fires, accumulated. rewrite Hobj'. simpl.
  rewrite Z.add_0_l in He. split.
  - apply (Z.div_unique_pos _ _ _ (duration t')); [lia|]. lia.
  - apply (Z.mod_unique_pos _ _ (trigger_count t')); [lia|]. lia.
Qed.

(** X14.  When every step is at least one period long, every [update()]
    fires: with a callback that takes no time, the number of fires is the
    number of calls, whatever the time that has passed.  Every step is
    within the range in which the float accumulator is exact. *)
Theorem fires_on_every_call_when_steps_are_long self w t dts :
  heap w !! self = Some t ->
  instant (callback t) ->
  Forall (fun dt => period t * 1000000 <= dt /\ float_exact dt) dts ->
  exists w',
    drive self dts (Timer.start self w) = (w', Ok)
    /\ fires self w' = Z.of_nat (length dts)
    /\ accumulated self w' = 0.
Proof.
  intros Hobj Hinst Hdts.
  destruct (start_ready self w t Hobj) as [Hobj0 Hclock0].
  set (Inv := fun (s _ d c : Z) => d = 0 /\ c = s).
  assert (Hwait : forall s e d c dt,
             Inv s e d c -> period t * 1000000 <= dt /\ float_exact dt ->
             d + dt < period t * 1000000 ->
             Inv (s + 1) (e + dt) (d + dt) c).
  { unfold Inv. intros s e d c dt (-> & ->) [Hdt _] Hlt. lia. }
  assert (Hfire : forall s e d c dt,
             Inv s e d c -> period t * 1000000 <= dt /\ float_exact dt ->
             period t * 1000000 <= d + dt ->
             Inv (s + 1) (e + dt) 0 (c + 1)).
  { unfold Inv. intros s e d c dt (-> & ->) Hdt Hge. done. }
  assert (HInv0 : Inv 0 0 0 0) by done.
  destruct (drive_instant_invariant self (period t * 1000000) (callback t)
              (fun dt => period t * 1000000 <= dt /\ float_exact dt) Inv
              Hinst Hwait Hfire dts Hdts
              (Timer.start self w) (started (clock w) t) 0 0
              Hobj0 eq_refl eq_refl eq_refl eq_refl eq_refl HInv0)
    as (w' & t' & Hdrive & Hobj' & _ & Hd & Hc).
  exists w'. split; [exact Hdrive|]. unfold fires, accumulated.
  rewrite Hobj'. simpl. lia.
Qed.
End TimerStates.

(** ** The life cycle, continued *)

Section LifeCycleMore.
Context `{Callables}.
Implicit Types (w : World) (m : Machine) (cls : AppClass).

(** The world [init] is called with, [u] and [dbg] being what the
    environment bootstrap returned. *)
Lemma before_loop_booted cls w u dbg :
  bootstrap (user w) = (u, dbg, Ok) ->
  let w_i :=
    with_run_state INITIALISING
      (with_timers []
         (with_run_state NOT_STARTED
            (with_exit_code 0
               (with_finished false
                  (with_debug_on dbg
                     (with_user u (with_run_state STARTING w))))))) in
  FeatherS2.before_loop cls (mkMachine _ w [])
  = match init cls w_i with
    | (wi, Ok) => (mkMachine _ (with_run_state LOOPING wi) entry_events, Ok)
    | (wi, Raise e) =>
        (mkMachine _ wi [Assign STARTING; Call m_startup; Assign NOT_STARTED;
                         Assign INITIALISING; Call m_init],
         Raise e)
    end.
Proof.
  intros Hboot w_i.
  unfold FeatherS2.before_loop, pthen, assign, FeatherS2.startup, call, silently.
  simpl. rewrite Hboot. simpl. fold w_i.
  by destruct (init cls w_i) as [wi [|e]].
Qed.

(** X15.  The base class on its own never leaves the loop: its hooks do
    nothing, [startup()] has emptied the timer dictionary and cleared the
    flag, so whatever fuel the loop is given it is still running when the
    fuel is used up. *)
Theorem base_class_never_leaves_the_loop fuel w u dbg :
  bootstrap (user w) = (u, dbg, Ok) ->
  FeatherS2.run FeatherS2.base fuel w = None.
Proof.
  intros Hboot.
  assert (Hloop : forall n m,
             finished (world m) = false -> timers (world m) = [] ->
             FeatherS2.looping FeatherS2.base n m = None).
  { induction n as [|n IH]; intros m Hfin Htimers; simpl; rewrite Hfin; [done|].
    unfold FeatherS2.iteration, pthen, call, FeatherS2.update_timers.
    rewrite Htimers. simpl. apply IH; done. }
  unfold FeatherS2.run, FeatherS2.try_body, FeatherS2.through_loop.
  rewrite (before_loop_booted FeatherS2.base w u dbg Hboot). simpl.
  by rewrite Hloop.
Qed.

(** X16.  A run without a fault.  When the loop makes [N] complete iterations
    and then finds the flag set, and [deinit] and [shutdown] return,
    [run()] returns; the handler is not entered, so the world is the one
    [shutdown] left; and the record shows every phase once and in order,
    the loop with its [N] timer passes and hook calls in between. *)
Theorem fault_free_run_visits_every_phase cls fuel w m0 mN (N : nat) wd ws :
  FeatherS2.before_loop cls (mkMachine _ w []) = (m0, Ok) ->
  iterate cls N m0 = Some mN ->
  finished (world mN) = true ->
  (N <= fuel)%nat ->
  deinit cls (with_run_state DEINITIALISING (world mN)) = (wd, Ok) ->
  shutdown cls (with_run_state SHUTTING_DOWN wd) = (ws, Ok) ->
  FeatherS2.run cls fuel w
  = Some (mkMachine _ ws
            (entry_events ++ loop_events N
             ++ [Assign DEINITIALISING; Call m_deinit;
                 Assign SHUTTING_DOWN; Call m_shutdown]),
          Ok).
Proof.
  intros Hentry Hiter Hfin Hfuel Hdeinit Hshut.
  pose proof (iterate_looping cls N m0 mN fuel Hiter Hfin Hfuel) as Hloop.
  destruct (before_loop_ok cls w m0 Hentry) as [Htr0 _].
  unfold FeatherS2.run, FeatherS2.try_body, FeatherS2.through_loop.
  rewrite Hentry, Hloop.
  unfold FeatherS2.after_loop, pthen, assign, call. simpl.
  rewrite Hdeinit. simpl. rewrite Hshut.
  rewrite (iterate_trace cls N m0 mN Hiter), Htr0, <- !app_assoc. reflexivity.
Qed.

(** X17.  A fault of [init].  [init] is entered with an empty timer
    dictionary, the flag unset and exit code 0.  When it raises and the
    state is still [INITIALISING], [run()] skips the loop and [shutdown],
    sets the exit code to the ordinal of [INITIALISING] and invokes
    [deinit] once; what that call does (return or raise) is what [run()]
    does. *)
Theorem init_fault_exit_code_and_cleanup cls fuel w u dbg wi e :
  bootstrap (user w) = (u, dbg, Ok) ->
  let w_i :=
    with_run_state INITIALISING
      (with_timers []
         (with_run_state NOT_STARTED
            (with_exit_code 0
               (with_finished false
                  (with_debug_on dbg
                     (with_user u (with_run_state STARTING w))))))) in
  init cls w_i = (wi, Raise e) ->
  run_state wi = INITIALISING ->
  let w_h :=
    with_exit_code (ordinal INITIALISING) (FeatherS2.report_exception e wi) in
  exists m' o' wd,
    FeatherS2.run cls fuel w = Some (m', o')
    /\ trace m' = [Assign STARTING; Call m_startup; Assign NOT_STARTED;
                   Assign INITIALISING; Call m_init; Call m_deinit]
    /\ deinit cls w_h = (wd, o')
    /\ world m' = match o' with
                  | Ok => FeatherS2.report_error wd
                  | Raise _ => wd
                  end.
Proof.
  intros Hboot w_i Hinit Hstate w_h.
  unfold FeatherS2.run, FeatherS2.try_body, FeatherS2.through_loop.
  rewrite (before_loop_booted cls w u dbg Hboot). fold w_i. rewrite Hinit.
  rewrite handler_before_shutdown by (simpl; rewrite Hstate; simpl; lia).
  simpl world. simpl trace. rewrite Hstate. fold w_h.
  match goal with
  | |- context [FeatherS2.cleanup cls ?mm] =>
      destruct (cleanup_spec cls mm) as (wd & Hd & Htr & Hw);
      destruct (FeatherS2.cleanup cls mm) as [m' o']
  end.
  simpl in *. exists m', o', wd. done.
Qed.
End LifeCycleMore.

(** ** [decode_address] *)

Section DecodeAddress.
Implicit Types (s sep : string) (addr : list Byte.byte) (b : Byte.byte).

Lemma str_app_cons (c : ascii) s1 s2 :
  String c s1 +:+ s2 = String c (s1 +:+ s2).
Proof. reflexivity. Qed.

Lemma str_app_nil_l s : "" +:+ s = s.
Proof. reflexivity. Qed.

Lemma str_length_app s1 s2 :
  String.length (s1 +:+ s2) = (String.length s1 + String.length s2)%nat.
Proof.
  induction s1 as [|c s1 IH]; [done|].
  rewrite str_app_cons. simpl. by rewrite IH.
Qed.

Lemma str_app_assoc s1 s2 s3 : (s1 +:+ s2) +:+ s3 = s1 +:+ (s2 +:+ s3).
Proof.
  induction s1 as [|c s1 IH]; [done|]. rewrite !str_app_cons. by rewrite IH.
Qed.

Lemma str_app_nil_r s : s +:+ "" = s.
Proof.
  induction s as [|c s IH]; [done|]. rewrite str_app_cons. by rewrite IH.
Qed.

Lemma substring_0_app s1 s2 :
  String.substring 0 (String.length s1) (s1 +:+ s2) = s1.
Proof.
  induction s1 as [|c s1 IH].
  - rewrite str_app_nil_l. by destruct s2.
  - rewrite str_app_cons. simpl. by rewrite IH.
Qed.

Lemma substring_0_length (n : nat) s :
  (n <= String.length s)%nat ->
  String.length (String.substring 0 n s) = n.
Proof.
  revert n. induction s as [|c s IH]; intros n Hn; simpl in *.
  - destruct n; [done | lia].
  - destruct n as [|n]; [done|]. simpl. rewrite IH; [done | lia].
Qed.

Lemma drop_last_snoc s (c : ascii) :
  FeatherS2.drop_last (s +:+ String c "") = s.
Proof.
  unfold FeatherS2.drop_last. rewrite str_length_app. simpl.
  replace (String.length s + 1 - 1)%nat with (String.length s) by lia.
  apply substring_0_app.
Qed.

Lemma drop_last_length s :
  String.length (FeatherS2.drop_last s) = (String.length s - 1)%nat.
Proof. unfold FeatherS2.drop_last. apply substring_0_length. lia. Qed.

Lemma hex2_length b : String.length (FeatherS2.hex2 b) = 2%nat.
Proof. reflexivity. Qed.

(** The loop appends to what it was given. *)
Lemma decode_loop_app addr sep s :
  FeatherS2.decode_loop addr sep s = s +:+ FeatherS2.decode_loop addr sep "".
Proof.
  revert s. induction addr as [|b r IH]; intros s.
  - simpl. by rewrite str_app_nil_r.
  - cbn [FeatherS2.decode_loop].
    rewrite (IH (s +:+ _)), (IH ("" +:+ _)).
    rewrite str_app_nil_l.
    by rewrite str_app_assoc.
Qed.

Lemma decode_loop_length addr sep :
  String.length (FeatherS2.decode_loop addr sep "")
  = (length addr * (2 + String.length sep))%nat.
Proof.
  induction addr as [|b r IH]; [done|].
  cbn [FeatherS2.decode_loop]. rewrite decode_loop_app, str_length_app, IH.
  rewrite str_app_nil_l.
  rewrite str_length_app, hex2_length, length_cons. lia.
Qed.

(** X18.  The length of a decoded address.  Each byte gives two characters
    and the separator, and the final slice takes one character off
    whatever the separator is: with a separator of one character the
    result has no trailing separator, with the empty separator it has
    lost its last digit, and the empty address gives the empty string. *)
Theorem decode_address_length addr sep :
  String.length (FeatherS2.decode_address addr sep)
  = (length addr * (2 + String.length sep) - 1)%nat
  /\ FeatherS2.decode_address [] sep = "".
Proof.
  split; [|reflexivity].
  unfold FeatherS2.decode_address. by rewrite drop_last_length, decode_loop_length.
Qed.

(** Before the slice, a non-empty address is its bytes in hexadecimal
    joined by the separator, with one more separator at the end. *)
Lemma decode_loop_join addr sep :
  addr <> [] ->
  FeatherS2.decode_loop addr sep ""
  = join sep (map FeatherS2.hex2 addr) +:+ sep.
Proof.
  induction addr as [|b r IH]; [done|]. intros _.
  cbn [FeatherS2.decode_loop]. rewrite decode_loop_app.
  destruct r as [|b' r'].
  - cbn [FeatherS2.decode_loop map join].
    rewrite str_app_nil_l.
    by rewrite str_app_nil_r.
  - rewrite IH by done.
    change (join sep (map FeatherS2.hex2 (b :: b' :: r')))
      with (FeatherS2.hex2 b
            +:+ (sep +:+ join sep (map FeatherS2.hex2 (b' :: r')))).
    rewrite str_app_nil_l.
    by rewrite !str_app_assoc.
Qed.

(** The slice takes the last separator off. *)
Lemma decode_address_join_eq addr (c : ascii) :
  FeatherS2.decode_address addr (String c "")
  = join (String c "") (map FeatherS2.hex2 addr).
Proof.
  destruct addr as [|b r]; [reflexivity|].
  unfold FeatherS2.decode_address. rewrite decode_loop_join by done.
  apply drop_last_snoc.
Qed.

(** X19.  With a separator of one character, [decode_address] is the
    separator joined over the two-digit lower-case hexadecimal forms of
    the bytes, in order. *)
Theorem decode_address_is_join addr (c : ascii) :
  FeatherS2.decode_address addr (String c "")
  = join (String c "") (map FeatherS2.hex2 addr).
Proof. apply decode_address_join_eq. Qed.

Lemma hex_digit_inj (a b : N) :
  (a < 16)%N -> (b < 16)%N ->
  FeatherS2.hex_digit a = FeatherS2.hex_digit b -> a = b.
Proof.
  intros Ha Hb. rewrite <- (N2Nat.id a), <- (N2Nat.id b).
  assert (Hi : (N.to_nat a < 16)%nat) by lia.
  assert (Hj : (N.to_nat b < 16)%nat) by lia.
  revert Hi Hj. generalize (N.to_nat a) (N.to_nat b). clear. intros i j Hi Hj.
  do 16 (destruct i as [|i];
         [do 16 (destruct j as [|j];
                 [first [reflexivity | intros Heq; vm_compute in Heq; discriminate]|]);
          lia|]).
  lia.
Qed.

Lemma hex2_inj b1 b2 : FeatherS2.hex2 b1 = FeatherS2.hex2 b2 -> b1 = b2.
Proof.
  unfold FeatherS2.hex2. intros [= Hhi Hlo].
  pose proof (Byte.to_N_bounded b1) as Hb1.
  pose proof (Byte.to_N_bounded b2) as Hb2.
  apply hex_digit_inj in Hhi;
    [| apply N.Div0.div_lt_upper_bound; lia
     | apply N.Div0.div_lt_upper_bound; lia].
  apply hex_digit_inj in Hlo; [| by apply N.mod_lt | by apply N.mod_lt].
  assert (Heq : Byte.to_N b1 = Byte.to_N b2).
  { rewrite (N.div_mod (Byte.to_N b1) 16), (N.div_mod (Byte.to_N b2) 16) by done.
    by rewrite Hhi, Hlo. }
  pose proof (Byte.of_to_N b1) as H1. rewrite Heq, Byte.of_to_N in H1.
  by injection H1.
Qed.

(** X20.  Different addresses decode to different strings: with a separator
    of one character the decoded string determines the bytes. *)
Theorem decode_address_inj addr1 addr2 (c : ascii) :
  FeatherS2.decode_address addr1 (String c "")
  = FeatherS2.decode_address addr2 (String c "") ->
  addr1 = addr2.
Proof.
  rewrite !decode_address_join_eq. revert addr2.
  induction addr1 as [|b1 r1 IH]; intros [|b2 r2] Heq.
  - done.
  - destruct r2; simpl in Heq; discriminate.
  - destruct r1; simpl in Heq; discriminate.
  - destruct r1 as [|b1' r1'], r2 as [|b2' r2'].
    + simpl in Heq. by rewrite (hex2_inj b1 b2 Heq).
    + simpl in Heq. discriminate.
    + simpl in Heq. discriminate.
    + change (FeatherS2.hex2 b1
              +:+ (String c "" +:+ join (String c "")
                                    (map FeatherS2.hex2 (b1' :: r1')))
              = FeatherS2.hex2 b2
                +:+ (String c "" +:+ join (String c "")
                                      (map FeatherS2.hex2 (b2' :: r2')))) in Heq.
      unfold FeatherS2.hex2 at 1 3 in Heq. simpl String.append in Heq.
      injection Heq as Hhi Hlo Hrest.
      change (join (String c "") (map FeatherS2.hex2 (b1' :: r1'))
              = join (String c "") (map FeatherS2.hex2 (b2' :: r2'))) in Hrest.
      rewrite (IH _ Hrest). f_equal. apply hex2_inj. unfold FeatherS2.hex2.
      by rewrite Hhi, Hlo.
Qed.
End DecodeAddress.

Import Bench.

Lemma callable_0_instant : instant 0%nat.
Proof. intros self at_ w. eexists. split; [reflexivity|]. split; reflexivity. Qed.



(** C2 on the bench: 3000 ms in two steps of 1500 ms fire the 1000 ms
    timer twice and leave nothing gathered. *)
Lemma gathered_fires_at_two_long_steps :
  exists w',
    drive 0%nat [ms 1500; ms 1500] (Timer.start 0%nat stopped_timer) = (w', Ok)
    /\ clock w' - clock stopped_timer = ms 3000
    /\ fires 0%nat w' = 2
    /\ accumulated 0%nat w' = 0
    /\ fires 0%nat w' <= total [ms 1500; ms 1500] `div` (period tick * 1000000)
    /\ total [ms 1500; ms 1500]
       < (fires 0%nat w' + 1) * (period tick * 1000000 + ms 1500).
Proof.
  destruct (fires_follow_the_gathered_time 0%nat stopped_timer tick
              [ms 1500; ms 1500] (ms 1500))
    as (w' & Hdrive & Hclock & Hf & Ha & _ & Hhi & _ & Hlo).
  - reflexivity.
  - reflexivity.
  - discriminate.
  - exact callable_0_instant.
  - repeat (constructor; [split; [reflexivity | discriminate]|]). constructor.
  - split; discriminate.
  - exists w'. split; [exact Hdrive|]. split; [exact Hclock|].
    split; [rewrite Hf; reflexivity|]. split; [rewrite Ha; reflexivity|].
    split; [exact Hhi | exact Hlo].
Defined.

(** C2 does not hold of the code: 3000 ms in two steps give two fires, one less
    than the three periods that have passed, and the same 3000 ms in three
    steps give three. *)
Lemma fire_count_depends_on_chunking :
  let two := [ms 1500; ms 1500] in
  let three := [ms 1000; ms 1000; ms 1000] in
  total two = total three
  /\ fires 0%nat (fst (drive 0%nat two one_timer)) = 2
  /\ fires 0%nat (fst (drive 0%nat three one_timer)) = 3
  /\ fires 0%nat (fst (drive 0%nat two one_timer))
     <> total two `div` (1000 * 1000000).
Proof. vm_compute. repeat split; discriminate. Qed.

(** C3 is broken by the code: in a run of the bench application that ends
    after one frame, [run_state] is given [NOT_STARTED] (ordinal 1) by
    [startup()] right after [run()] gave it [STARTING] (ordinal 2). *)
Theorem startup_moves_run_state_backward :
  exists m,
    FeatherS2.run (app 1) 1 w0 = Some (m, Ok)
    /\ assigned (trace m)
       = [STARTING; NOT_STARTED; INITIALISING; LOOPING; DEINITIALISING;
          SHUTTING_DOWN]
    /\ forward_only (assigned (trace m)) = false
    /\ ordinal NOT_STARTED < ordinal STARTING.
Proof.
  eexists. split; [vm_compute; reflexivity|]. vm_compute. repeat split.
Qed.

(** C4 on a board without its I2C bus. *)
Lemma bootstrap_fault_without_bus :
  exists m',
    FeatherS2.run (app 3) 0 w0_no_bus = Some (m', Ok)
    /\ trace m' = [Assign STARTING; Call m_startup; Call m_deinit]
    /\ exit_code (world m') = ordinal STARTING
    /\ deinits (user (world m')) = 1%nat.
Proof.
  edestruct (bootstrap_fault_exit_code_and_cleanup (app 3) 0%nat w0_no_bus)
    as (m' & o' & wd & Hrun & Htr & _ & Hd & Hw).
  - reflexivity.
  - vm_compute in Hd. injection Hd as <- <-.
    exists m'. rewrite Hrun, Htr, Hw. vm_compute. repeat split.
Defined.

(** C5 on a [deinit] that raises on its first invocation only: the fault
    is handled and [run()] returns. *)
Lemma flaky_deinit_is_retried :
  exists m',
    FeatherS2.run (app_flaky_deinit 2) 5 w0 = Some (m', Ok)
    /\ exit_code (world m') = ordinal DEINITIALISING
    /\ deinits (user (world m')) = 2%nat.
Proof.
  edestruct (teardown_fault_is_handled (app_flaky_deinit 2) 5%nat w0)
    as [Hdeinit _].
  - vm_compute. reflexivity.
  - vm_compute. reflexivity.
  - edestruct Hdeinit as (Hrun & _ & _).
    + vm_compute. reflexivity.
    + reflexivity.
    + eexists. rewrite Hrun. split; [vm_compute; reflexivity|].
      vm_compute. split; reflexivity.
Defined.

(** C5 does not hold of the code: the run is free of faults up to [DEINITIALISING],
    [deinit] raises there, and [run()] nevertheless returns to its
    caller. *)
Lemma deinit_fault_does_not_reach_caller :
  exists m0 m1 wd e m',
    FeatherS2.before_loop (app_flaky_deinit 2) (mkMachine _ w0 []) = (m0, Ok)
    /\ FeatherS2.looping (app_flaky_deinit 2) 5 m0 = Some (m1, Ok)
    /\ deinit (app_flaky_deinit 2) (with_run_state DEINITIALISING (world m1))
       = (wd, Raise e)
    /\ FeatherS2.run (app_flaky_deinit 2) 5 w0 = Some (m', Ok).
Proof.
  eexists _, _, _, _, _.
  split; [vm_compute; reflexivity|].
  split; [vm_compute; reflexivity|].
  split; vm_compute; reflexivity.
Qed.

(** C6 on an [init] that calls [finish()]. *)
Lemma finish_in_init_on_bench :
  exists m' o',
    FeatherS2.run (app_finish_in_init 3) 0 w0 = Some (m', o')
    /\ calls_of m_update_timers (trace m') = 0%nat
    /\ calls_of m_loop (trace m') = 0%nat.
Proof.
  destruct (finish_in_init_skips_loop (app_finish_in_init 3) 0%nat w0)
    as [Hinit _].
  edestruct Hinit as (m' & o' & rest & Hrun & _ & Hu & Hl).
  - vm_compute. reflexivity.
  - reflexivity.
  - exists m', o'. split; [exact Hrun|]. split; [exact Hu | exact Hl].
Defined.

(** C6 does not hold of the code: with an [init] that does nothing the loop of the
    bench application makes three iterations; with an [init] that calls
    [finish()] the same loop makes none. *)
Lemma finish_in_init_changes_the_loop :
  exists m m',
    FeatherS2.run (app_no_init 3) 5 w0 = Some (m, Ok)
    /\ FeatherS2.run (app_finish_in_init 3) 5 w0 = Some (m', Ok)
    /\ calls_of m_loop (trace m) = 3%nat
    /\ calls_of m_loop (trace m') = 0%nat
    /\ frames (user (world m)) = 3%nat
    /\ frames (user (world m')) = 0%nat.
Proof.
  eexists _, _.
  split; [vm_compute; reflexivity|].
  split; [vm_compute; reflexivity|].
  vm_compute. repeat split.
Qed.

(** C7 on a second registration of ["tick"]. *)
Lemma second_tick_is_refused :
  FeatherS2.add_timer 5 1%nat (Some "tick") None with_tick = (with_tick, None).
Proof.
  apply (add_timer_taken_name_refused with_tick "tick" 0%nat).
  - reflexivity.
  - discriminate.
Defined.

(** C8 on a loop hook that raises on the second frame and on a timer
    callback that raises in the first pass. *)
Lemma loop_fault_on_second_frame :
  (exists m',
      FeatherS2.run (app_loop_fault 2) 5 w0 = Some (m', Ok)
      /\ calls_of m_deinit (trace m') = 1%nat
      /\ exit_code (world m') = ordinal LOOPING)
  /\ (exists m',
        FeatherS2.run app_callback_fault 5 w0 = Some (m', Ok)
        /\ calls_of m_deinit (trace m') = 1%nat
        /\ exit_code (world m') = ordinal LOOPING
        /\ calls_of m_loop (trace m') = 0%nat).
Proof.
  split.
  - edestruct (loop_fault_exit_code_and_cleanup (app_loop_fault 2) 2%nat 5%nat w0)
      as (m' & o' & wd & Hrun & _ & Hcalls & _ & Hd & Hw).
    + vm_compute. reflexivity.
    + vm_compute. reflexivity.
    + reflexivity.
    + lia.
    + vm_compute in Hd. injection Hd as <- <-.
      exists m'. rewrite Hrun, Hcalls, Hw. vm_compute. repeat split.
  - edestruct (loop_fault_exit_code_and_cleanup app_callback_fault 1%nat 5%nat w0)
      as (m' & o' & wd & Hrun & Htr & Hcalls & _ & Hd & Hw).
    + vm_compute. reflexivity.
    + vm_compute. reflexivity.
    + reflexivity.
    + lia.
    + vm_compute in Hd. injection Hd as <- <-.
      exists m'. rewrite Hrun, Hcalls, Hw, Htr. vm_compute. repeat split.
Defined.

(** C9 on a loop hook that calls [finish()] on the third frame. *)
Lemma finish_on_third_frame :
  exists m' o',
    FeatherS2.run (app 3) 3 w0 = Some (m', o')
    /\ calls_of m_update_timers (trace m') = 3%nat
    /\ calls_of m_loop (trace m') = 3%nat.
Proof.
  edestruct (finish_in_loop_completes_iteration (app 3) 3%nat w0)
    with (N := 3%nat)
    as (m' & o' & rest & Hrun & _ & Hu & Hl).
  - vm_compute. reflexivity.
  - vm_compute. reflexivity.
  - reflexivity.
  - lia.
  - exists m', o'. split; [exact Hrun|]. split; [exact Hu | exact Hl].
Defined.

(** C10 on a dictionary that already holds ["Timer-0"] while the name
    counter is 0, and on one that already holds ["Timer-12"] while the
    name counter is 12: the unnamed timer is registered under that very
    name and the entry of the earlier timer is gone. *)
Lemma unnamed_timer_takes_over_counter_name :
  (exists w',
      FeatherS2.add_timer 7 1%nat None None with_explicit_timer_0
      = (w', Some 1%nat)
      /\ dict_get "Timer-0" (timers with_explicit_timer_0) = Some 0%nat
      /\ dict_get "Timer-0" (timers w') = Some 1%nat
      /\ name <$> heap w' !! 1%nat = Some "Timer-0"
      /\ name_counter w' = 1%N)
  /\ (exists w',
        name_counter with_explicit_timer_12 = 12%N
        /\ FeatherS2.add_timer 7 1%nat None None with_explicit_timer_12
           = (w', Some 13%nat)
        /\ dict_get "Timer-12" (timers with_explicit_timer_12) = Some 12%nat
        /\ dict_get "Timer-12" (timers w') = Some 13%nat
        /\ dict_get "Timer-0" (timers w') = Some 0%nat
        /\ name <$> heap w' !! 13%nat = Some "Timer-12"
        /\ name_counter w' = 13%N).
Proof.
  split.
  - destruct (add_timer_unnamed_always_registers with_explicit_timer_0 None
                7 1%nat None eq_refl)
      as (w' & Hadd & Ht & Hget & Hheap & Hctr & _).
    exists w'. split; [exact Hadd|]. split; [reflexivity|].
    split; [exact Hget|]. split; [rewrite Hheap; reflexivity|].
    rewrite Hctr. reflexivity.
  - destruct (add_timer_unnamed_always_registers with_explicit_timer_12 None
                7 1%nat None eq_refl)
      as (w' & Hadd & Ht & Hget & Hheap & Hctr & _).
    exists w'. split; [reflexivity|]. split; [exact Hadd|].
    split; [vm_compute; reflexivity|]. split; [exact Hget|].
    split; [rewrite Ht; vm_compute; reflexivity|].
    split; [rewrite Hheap; vm_compute; reflexivity|].
    rewrite Hctr. reflexivity.
Defined.

(** ** The further properties on the bench application *)

Lemma fresh_tick_is_found :
  exists w',
    FeatherS2.add_timer 1000 0%nat (Some "tick") None w0 = (w', Some 0%nat)
    /\ FeatherS2.get_timer "tick" w' = Some 0%nat
    /\ heap w' !! 0%nat = Some tick.
Proof.
  destruct (add_timer_then_get_timer w0 "tick" 1000 0%nat None)
    as (w' & Hadd & Hget & _ & Hobj & _).
  - discriminate.
  - reflexivity.
  - exists w'. split; [exact Hadd|]. split; [exact Hget | exact Hobj].
Defined.

Lemma removed_tick_is_gone :
  FeatherS2.has_timer "tick" (FeatherS2.remove_timer "tick" with_tick) = false
  /\ heap (FeatherS2.remove_timer "tick" with_tick) = heap with_tick.
Proof.
  destruct (remove_timer_forgets_only_that_name with_tick "tick")
    as (Hhas & _ & _ & Hheap & _).
  - vm_compute. apply NoDup_singleton.
  - split; [exact Hhas | exact Hheap].
Defined.

Lemma tick_added_and_removed :
  timers (FeatherS2.remove_timer "tick"
            (fst (FeatherS2.add_timer 1000 0%nat (Some "tick") None w0)))
  = timers w0.
Proof.
  destruct (add_timer_then_remove_timer w0 "tick" 1000 0%nat None)
    as (Ht & _ & _).
  - discriminate.
  - reflexivity.
  - exact Ht.
Defined.

Lemma two_unnamed_timers :
  exists w1 w2,
    FeatherS2.add_timer 5 0%nat None None w0 = (w1, Some 0%nat)
    /\ FeatherS2.add_timer 7 1%nat (Some "") None w1 = (w2, Some 1%nat)
    /\ FeatherS2.get_timer "Timer-0" w2 = Some 0%nat
    /\ FeatherS2.get_timer "Timer-1" w2 = Some 1%nat.
Proof.
  destruct (unnamed_timers_get_distinct_names w0 None (Some "")
              5 0%nat None 7 1%nat None eq_refl eq_refl)
    as (w1 & w2 & Hadd1 & Hadd2 & _ & Hget1 & Hget2 & _).
  exists w1, w2. split; [exact Hadd1|]. split; [exact Hadd2|].
  split; [exact Hget1 | exact Hget2].
Defined.

Lemma registry_of_bench_in_order :
  registry_ok with_tick
  /\ registry_ok (FeatherS2.start_all_timers with_tick)
  /\ registry_ok (FeatherS2.remove_timer "tick" with_tick).
Proof.
  assert (Hok0 : registry_ok w0).
  { split; [apply NoDup_nil_2 | intros n id Hget; discriminate Hget]. }
  destruct (registry_stays_in_order w0 Hok0) as (Hadd & _).
  assert (Hok : registry_ok with_tick)
    by exact (Hadd 1000 0%nat (Some "tick") None).
  destruct (registry_stays_in_order with_tick Hok)
    as (_ & Hrem & _ & _ & _ & _ & Hstart & _).
  split; [exact Hok|]. split; [exact Hstart | exact (Hrem "tick")].
Defined.

Lemma created_timer_ignores_time :
  drive 0%nat [ms 300; ms 900] stopped_timer
  = (advance (total [ms 300; ms 900]) stopped_timer, Ok).
Proof.
  apply (idle_timer_ignores_time 0%nat stopped_timer tick).
  - reflexivity.
  - reflexivity.
Defined.

Lemma stop_after_a_fire :
  fires 0%nat fired_once = 1
  /\ exists w',
       drive 0%nat [ms 2000; ms 2000] (Timer.stop 0%nat fired_once) = (w', Ok)
       /\ fires 0%nat w' = 0
       /\ accumulated 0%nat w' = 0
       /\ user w' = user fired_once.
Proof.
  split; [vm_compute; reflexivity|].
  edestruct (stop_zeroes_and_silences 0%nat fired_once)
    with (dts := [ms 2000; ms 2000])
    as (w' & Hdrive & _ & Hf & Ha & _ & Hu).
  - vm_compute. reflexivity.
  - exists w'. split; [exact Hdrive|]. split; [exact Hf|].
    split; [exact Ha | exact Hu].
Defined.

Lemma pause_of_five_seconds :
  exists w' t',
    Timer.update 0%nat
      (advance (ms 200) (Timer.resume 0%nat (advance (ms 5000)
         (Timer.pause 0%nat (advance (ms 100) after_one_step)))))
    = (w', Ok)
    /\ heap w' !! 0%nat = Some t'
    /\ duration t' = ms 300 + ms 200
    /\ trigger_count t' = 0.
Proof.
  edestruct (pause_resume_counts_only_time_after_resume 0%nat after_one_step)
    with (d0 := ms 100) (d1 := ms 5000) (d2 := ms 200)
    as (w' & t' & Hupd & Hobj & Hd & Htc & _).
  - vm_compute. reflexivity.
  - reflexivity.
  - vm_compute. reflexivity.
  - split; vm_compute; discriminate.
  - split; vm_compute; discriminate.
  - split; vm_compute; discriminate.
  - exists w', t'. split; [exact Hupd|]. split; [exact Hobj|].
    split; [exact Hd | exact Htc].
Defined.

Lemma raising_callback_on_bench :
  exists w2 e t',
    Timer.update 0%nat bad_timer_due = (w2, Raise e)
    /\ heap w2 !! 0%nat = Some t'
    /\ trigger_count t' = 0
    /\ duration t' = ms 1000.
Proof.
  edestruct (callback_fault_leaves_timer_due 0%nat bad_timer_due)
    as (Hupd & t' & Hobj & Htc & _ & Hd & _).
  - vm_compute. reflexivity.
  - reflexivity.
  - reflexivity.
  - vm_compute. discriminate.
  - vm_compute. discriminate.
  - split; vm_compute; discriminate.
  - split; vm_compute; discriminate.
  - split; vm_compute; discriminate.
  - split; vm_compute; reflexivity.
  - eexists _, _, t'. split; [exact Hupd|]. split; [exact Hobj|].
    split; [exact Htc | exact Hd].
Defined.

Lemma three_steps_of_700_ms :
  exists w',
    drive 0%nat [ms 700; ms 700; ms 700] (Timer.start 0%nat stopped_timer)
    = (w', Ok)
    /\ total [ms 700; ms 700; ms 700]
       < (fires 0%nat w' + 1) * (period tick * 1000000 + ms 700).
Proof.
  destruct (fires_at_least_once_per_period_and_step 0%nat stopped_timer tick
              [ms 700; ms 700; ms 700] (ms 700))
    as (w' & Hdrive & _ & Hbound).
  - reflexivity.
  - reflexivity.
  - discriminate.
  - exact callable_0_instant.
  - repeat constructor; discriminate.
  - split; discriminate.
  - exists w'. split; [exact Hdrive | exact Hbound].
Defined.

Lemma seven_steps_of_250_ms :
  exists w',
    drive 0%nat (replicate 7 (ms 250)) (Timer.start 0%nat stopped_timer)
    = (w', Ok)
    /\ fires 0%nat w'
       = total (replicate 7 (ms 250)) `div` (period tick * 1000000)
    /\ accumulated 0%nat w'
       = total (replicate 7 (ms 250)) `mod` (period tick * 1000000).
Proof.
  destruct (fires_exactly_when_step_divides_period 0%nat stopped_timer tick
              7 (ms 250) 4)
    as (w' & Hdrive & _ & Hf & Ha).
  - reflexivity.
  - reflexivity.
  - reflexivity.
  - reflexivity.
  - exact callable_0_instant.
  - split; discriminate.
  - exists w'. split; [exact Hdrive|]. split; [exact Hf | exact Ha].
Defined.

Lemma two_long_steps_fire_twice :
  exists w',
    drive 0%nat [ms 1500; ms 1000] (Timer.start 0%nat stopped_timer) = (w', Ok)
    /\ fires 0%nat w' = Z.of_nat (length [ms 1500; ms 1000]).
Proof.
  destruct (fires_on_every_call_when_steps_are_long 0%nat stopped_timer tick
              [ms 1500; ms 1000])
    as (w' & Hdrive & Hf & _).
  - reflexivity.
  - exact callable_0_instant.
  - repeat constructor; discriminate.
  - exists w'. split; [exact Hdrive | exact Hf].
Defined.

Lemma base_class_on_bench_runs_on :
  FeatherS2.run FeatherS2.base 1000 w0 = None.
Proof.
  apply (base_class_never_leaves_the_loop 1000 w0 fresh false). reflexivity.
Defined.

Lemma bench_run_without_fault :
  exists ws,
    FeatherS2.run (app 3) 3 w0
    = Some (mkMachine _ ws
              (entry_events ++ loop_events 3
               ++ [Assign DEINITIALISING; Call m_deinit;
                   Assign SHUTTING_DOWN; Call m_shutdown]),
            Ok)
    /\ exit_code ws = 0.
Proof.
  eexists. split.
  - eapply (fault_free_run_visits_every_phase (app 3) 3%nat w0).
    + vm_compute. reflexivity.
    + vm_compute. reflexivity.
    + reflexivity.
    + lia.
    + vm_compute. reflexivity.
    + vm_compute. reflexivity.
  - reflexivity.
Defined.

Lemma init_fault_on_bench :
  exists m',
    FeatherS2.run app_init_fault 0 w0 = Some (m', Ok)
    /\ trace m' = [Assign STARTING; Call m_startup; Assign NOT_STARTED;
                   Assign INITIALISING; Call m_init; Call m_deinit]
    /\ exit_code (world m') = ordinal INITIALISING.
Proof.
  edestruct (init_fault_exit_code_and_cleanup app_init_fault 0%nat w0)
    as (m' & o' & wd & Hrun & Htr & Hd & Hw).
  - reflexivity.
  - reflexivity.
  - reflexivity.
  - vm_compute in Hd. injection Hd as <- <-.
    exists m'. rewrite Hrun, Htr, Hw. vm_compute. repeat split.
Defined.

Lemma reversed_twice_is_the_same_mac :
  FeatherS2.decode_address mac ":" = "7c:df:a1:00:3c:0e"
  /\ rev (rev mac) = mac.
Proof.
  split; [reflexivity|].
  apply (decode_address_inj (rev (rev mac)) mac ":"%char). reflexivity.
Defined.

Lemma two_of_three_timers_removed :
  let w3 :=
    fst (FeatherS2.add_timer 3 0%nat (Some "c") None
           (fst (FeatherS2.add_timer 2 0%nat (Some "b") None
                   (fst (FeatherS2.add_timer 1 0%nat (Some "a") None w0))))) in
  FeatherS2.get_timer "a" (FeatherS2.remove_timers ["a"; "x"; "c"; "a"] w3) = None
  /\ FeatherS2.get_timer "b" (FeatherS2.remove_timers ["a"; "x"; "c"; "a"] w3)
     = Some 1%nat.
Proof.
  intros w3.
  destruct (remove_timers_forgets_the_listed_names w3 ["a"; "x"; "c"; "a"])
    as (Hin & Hout & _).
  - vm_compute. repeat constructor; [| |]; intros Hx;
      repeat (apply elem_of_cons in Hx as [Hx|Hx]; [discriminate Hx|]);
      by apply elem_of_nil in Hx.
  - split.
    + apply Hin. apply elem_of_cons. by left.
    + rewrite Hout; [reflexivity|]. intros Hx.
      repeat (apply elem_of_cons in Hx as [Hx|Hx]; [discriminate Hx|]).
      by apply elem_of_nil in Hx.
Defined.
